(** * Missing-data pattern statistics

    A shallow embedding of [autoimpute/utils/patterns.py]: the pairwise
    counts [md_pairs], the row-pattern table [md_pattern], the coefficients
    [inbound], [outbound], [influx], [outflux] and the report [flux].

    numpy arrays are lists of rows that carry their width, pandas frames are
    labelled lists of rows, Python exceptions are the [Raise] branch of
    [result].  64-bit integer counts are unbounded [Z] (a count never
    exceeds the number of cells held in memory). *)

From Stdlib Require Import String Ascii DecimalString.
From Stdlib Require Import List ZArith QArith Lqa Lia Bool Permutation Sorted.
Import ListNotations.
Local Open Scope Z_scope.

Set Implicit Arguments.

(** ** Exceptions *)

Inductive error := DimensionError | ValueError | KeyError.

Inductive result (A : Type) : Type :=
| Raise (e : error)
| Return (a : A).
Arguments Raise {A} e.
Arguments Return {A} a.

Definition bind {A B} (m : result A) (k : A -> result B) : result B :=
  match m with
  | Raise e => Raise e
  | Return a => k a
  end.

Notation "x <- m ;; k" := (bind m (fun x => k))
  (at level 61, m at next level, right associativity).

(** ** Labels, arrays and frames *)

(** A column label is a name or, in the positional fallback, an integer. *)
Inductive label := Name (s : string) | Pos (i : nat).

Definition label_eqb (a b : label) : bool :=
  match a, b with
  | Name s, Name t => String.eqb s t
  | Pos i, Pos j => Nat.eqb i j
  | _, _ => false
  end.

(** A two-dimensional numpy array of shape [(shape0, shape1)]. *)
Record ndarray (A : Type) := mk_array { shape1 : nat; rows : list (list A) }.

Definition shape0 {A} (a : ndarray A) : nat := List.length (rows a).

Definition well_shaped {A} (a : ndarray A) : Prop :=
  Forall (fun row => List.length row = shape1 a) (rows a).

Definition amap {A B} (f : A -> B) (a : ndarray A) : ndarray B :=
  {| shape1 := shape1 a; rows := map (map f) (rows a) |}.

(** A pandas frame: row labels, column labels, and the values row by row. *)
Record Table (A : Type) := mk_table
  { index : list label; columns : list label; values : list (list A) }.

Definition RangeIndex (n : nat) : list label := map Pos (seq 0 n).

Definition to_array {A} (t : Table A) : ndarray A :=
  {| shape1 := List.length (columns t); rows := values t |}.

Definition entry {A} (d : A) (m : list (list A)) (j k : nat) : A :=
  nth k (nth j m []) d.

(** A cell of the dataset: [None] is the missing sentinel. *)
Definition cell := option Z.
Definition dataset := ndarray cell.

(** ** The three collaborators of [checks.py] and [helpers.py] *)

(** Modelled from the spec: [_is_null] of helpers.py, the Missingness
    Extractor, "returns a same-shaped boolean matrix", true where missing. *)
Definition _is_null (data : dataset) : ndarray bool :=
  amap (fun c : cell => match c with None => true | Some _ => false end) data.

(** Modelled from the spec: the decorator [check_dimensions] of checks.py,
    the Dimension Validator, "fails with a DimensionError when the dataset has
    fewer than 2 columns or when supplied labels do not match the column
    count; otherwise passes the dataset through unchanged". *)
Definition check_dimensions {B}
  (func : dataset -> option (list label) -> result B)
  (data : dataset) (cols : option (list label)) : result B :=
  if (shape1 data <? 2)%nat then Raise DimensionError
  else match cols with
       | None => func data cols
       | Some c =>
           if (List.length c =? shape1 data)%nat then func data cols
           else Raise DimensionError
       end.

(** Modelled from the spec: [_pattern_output] of helpers.py, the Result
    Formatter, which takes "a raw numeric matrix or vector, a column-label
    sequence (or None for positional fallback), and a flag selecting square
    layout (labels on both axes) versus flat layout (labels on columns
    only)" and "must not alter numeric values". *)
Definition _pattern_output {A} (stat : ndarray A) (cols : option (list label))
  (square : bool) : Table A :=
  let labels := match cols with
                | Some c => c
                | None => RangeIndex (shape1 stat)
                end in
  {| index := if square then labels else RangeIndex (shape0 stat);
     columns := labels;
     values := rows stat |}.

(** ** numpy on integer and boolean arrays *)

(** Truth value of an array element, as [np.logical_not] reads it. *)
Class Truthy (A : Type) := truth : A -> bool.
#[global] Instance Truthy_bool : Truthy bool := fun b => b.
#[global] Instance Truthy_Z : Truthy Z := fun z => negb (z =? 0).

Definition logical_not {A} `{Truthy A} (x : A) : bool := negb (truth x).

(** [arr * 1] on a boolean array. *)
Definition times1 (b : bool) : Z := if b then 1 else 0.

(** [int_ln = lambda arr: np.logical_not(arr)*1] *)
Definition int_ln {A} `{Truthy A} (arr : ndarray A) : ndarray Z :=
  amap (fun x => times1 (logical_not x)) arr.

Definition column {A} (d : A) (j : nat) (a : ndarray A) : list A :=
  map (fun row => nth j row d) (rows a).

(** [a.T] *)
Definition T (a : ndarray Z) : ndarray Z :=
  {| shape1 := shape0 a;
     rows := map (fun j => column 0 j a) (seq 0 (shape1 a)) |}.

Definition dot (u v : list Z) : Z :=
  fold_right Z.add 0 (map (fun xy => fst xy * snd xy) (combine u v)).

(** [np.matmul(a, b)]; at every call below the inner dimensions agree
    ([a] is the transpose of an array with as many rows as [b]). *)
Definition matmul (a b : ndarray Z) : ndarray Z :=
  {| shape1 := shape1 b;
     rows := map (fun ra => map (fun k => dot ra (column 0 k b))
                              (seq 0 (shape1 b)))
                 (rows a) |}.

(** ** [md_pairs] *)

(** The dictionary [dict(rr=.., rm=.., mr=.., mm=..)]. *)
Record pairs_t := mk_pairs
  { rr : Table Z; rm : Table Z; mr : Table Z; mm : Table Z }.

Definition md_pairs_body (data : dataset) (cols : option (list label))
  : result pairs_t :=
  let r := int_ln (_is_null data) in
  let rr := matmul (T r) r in
  let mm := matmul (T (int_ln r)) (int_ln r) in
  let mr := matmul (T (int_ln r)) r in
  let rm := matmul (T r) (int_ln r) in
  Return {| rr := _pattern_output rr cols true;
            rm := _pattern_output rm cols true;
            mr := _pattern_output mr cols true;
            mm := _pattern_output mm cols true |}.

Definition md_pairs : dataset -> option (list label) -> result pairs_t :=
  check_dimensions md_pairs_body.

(** The 4 x 3 scenario of the specification: A fully observed, B missing in
    rows 1 and 3, C missing in row 2 (rows counted from 0). *)
Definition scenario : dataset :=
  {| shape1 := 3;
     rows := [ [Some 1; Some 2; Some 3];
               [Some 4; None;   Some 5];
               [Some 6; Some 7; None];
               [Some 8; None;   Some 9] ] |}.

Definition ABC : list label := [Name "A"; Name "B"; Name "C"].

(** ** numpy and pandas operations used by [md_pattern] *)

(** [np.sum(r, axis=0)] on a boolean array: the number of [True] per column. *)
Definition sum_axis0 (r : ndarray bool) : list Z :=
  map (fun j => fold_right Z.add 0 (map times1 (column false j r)))
      (seq 0 (shape1 r)).

(** [df.sum(axis=1)] and [np.nansum(int_array, axis=1)]: the row totals. *)
Definition sum_axis1 (m : list (list Z)) : list Z :=
  map (fun row => fold_right Z.add 0 row) m.

Section Argsort.
Context {A : Type} (leb : A -> A -> bool).

Fixpoint insert_by (x : nat * A) (l : list (nat * A)) : list (nat * A) :=
  match l with
  | [] => [x]
  | y :: l' => if leb (snd x) (snd y) then x :: l else y :: insert_by x l'
  end.

(** [np.argsort(xs)]: the indices that put [xs] in ascending order.  numpy
    promises a sorting permutation; its default sort keeps equal keys in
    their original order on short inputs (insertion sort below 17
    elements), which is the order modelled here for every length. *)
Definition argsort (xs : list A) : list nat :=
  map fst (fold_right insert_by [] (combine (seq 0 (List.length xs)) xs)).
End Argsort.

(** [r[:, perm]] *)
Definition take_columns {A} (d : A) (perm : list nat) (r : ndarray A)
  : ndarray A :=
  {| shape1 := List.length perm;
     rows := map (fun row => map (fun j => nth j row d) perm) (rows r) |}.

(** [r[perm, :]] *)
Definition take_rows {A} (perm : list nat) (r : ndarray A) : ndarray A :=
  {| shape1 := shape1 r; rows := map (fun i => nth i (rows r) []) perm |}.

(** [np.apply_along_axis(func1d, 1, arr)]: numpy raises ValueError ("Cannot
    apply_along_axis when any iteration dimensions are 0") on an array
    without rows. *)
Definition apply_along_axis1 {A B} (func1d : list A -> B) (arr : list (list A))
  : result (list B) :=
  match arr with
  | [] => Raise ValueError
  | _ :: _ => Return (map func1d arr)
  end.

(** [str(e)] on an integer. *)
Definition str (e : Z) : string := NilZero.string_of_int (Z.to_int e).

(** [num_string = lambda row: "".join(str(e) for e in row)] *)
Definition num_string (row : list Z) : string :=
  fold_right String.append EmptyString (map str row).

(** Positions of the columns of a header that carry label [l]. *)
Fixpoint locs_from (i : nat) (l : label) (header : list label) : list nat :=
  match header with
  | [] => []
  | h :: t =>
      if label_eqb l h then i :: locs_from (S i) l t else locs_from (S i) l t
  end.

Definition locs (header : list label) (l : label) : list nat :=
  locs_from 0 l header.

Definition has_label (header : list label) (l : label) : bool :=
  match locs header l with [] => false | _ :: _ => true end.

Fixpoint distinct (ls : list label) : bool :=
  match ls with
  | [] => true
  | l :: t => negb (has_label t l) && distinct t
  end.

(** [df[labels]]: KeyError on an unknown label; a label carried by several
    columns selects all of them. *)
Definition getitem {A} (d : A) (df : Table A) (labels : list label)
  : result (Table A) :=
  if forallb (has_label (columns df)) labels then
    let ps := flat_map (locs (columns df)) labels in
    Return {| index := index df;
              columns := map (fun i => nth i (columns df) (Pos 0)) ps;
              values := map (fun row => map (fun i => nth i row d) ps)
                            (values df) |}
  else Raise KeyError.

Fixpoint set_nth {A} (i : nat) (x : A) (l : list A) : list A :=
  match i, l with
  | _, [] => []
  | O, _ :: t => x :: t
  | S i', h :: t => h :: set_nth i' x t
  end.

(** [df[l] = col]: overwrites the column labelled [l], or appends one. *)
Definition setitem {A} (df : Table A) (l : label) (col : list A)
  : result (Table A) :=
  if negb (List.length col =? List.length (values df))%nat then Raise ValueError
  else match locs (columns df) l with
       | [] => Return {| index := index df;
                         columns := columns df ++ [l];
                         values := map (fun rc => fst rc ++ [snd rc])
                                       (combine (values df) col) |}
       | ps => Return {| index := index df;
                         columns := columns df;
                         values := map (fun rc =>
                                     fold_left (fun row i => set_nth i (snd rc) row)
                                               ps (fst rc))
                                     (combine (values df) col) |}
       end.

(** [df[labels] = sub]: column [i] of [sub] goes to the column of [df] that
    the [i]-th label names; pandas raises ValueError ("Columns must be same
    length as key") when the two counts differ. *)
Definition setitems {A} (df : Table A) (labels : list label) (sub : Table A)
  : result (Table A) :=
  if forallb (has_label (columns df)) labels then
    let ps := flat_map (locs (columns df)) labels in
    if negb (List.length ps =? List.length (columns sub))%nat
       || negb (List.length (values sub) =? List.length (values df))%nat
    then Raise ValueError
    else Return {| index := index df;
                   columns := columns df;
                   values := map (fun rs =>
                       fold_left (fun row ix => set_nth (fst ix) (snd ix) row)
                                 (combine ps (snd rs)) (fst rs))
                     (combine (values df) (values sub)) |}
  else Raise KeyError.

(** [df.columns = new]: ValueError on a length mismatch. *)
Definition set_columns {A} (df : Table A) (new : list label)
  : result (Table A) :=
  if (List.length new =? List.length (columns df))%nat
  then Return {| index := index df; columns := new; values := values df |}
  else Raise ValueError.

(** Tuple comparison of two group keys. *)
Fixpoint key_compare (k k' : list Z) : comparison :=
  match k, k' with
  | [], [] => Eq
  | [], _ :: _ => Lt
  | _ :: _, [] => Gt
  | x :: t, y :: t' =>
      match x ?= y with
      | Eq => key_compare t t'
      | c => c
      end
  end.

(** One more row with key [k] in the sorted tally of group sizes. *)
Fixpoint tally (k : list Z) (groups : list (list Z * Z)) : list (list Z * Z) :=
  match groups with
  | [] => [(k, 1)]
  | (k', c) :: rest =>
      match key_compare k k' with
      | Lt => (k, 1) :: groups
      | Eq => (k', c + 1) :: rest
      | Gt => (k', c) :: tally k rest
      end
  end.

(** [df.groupby(by).size().reset_index()]: one row per distinct key, keys in
    ascending order, the group size in a last column labelled [0].  A grouper
    label must name exactly one column (KeyError if none, ValueError if
    several), and [reset_index] raises ValueError when a key label is
    repeated or is already [0]. *)
Definition groupby_size (df : Table Z) (by_ : list label) : result (Table Z) :=
  if negb (forallb (has_label (columns df)) by_) then Raise KeyError
  else if negb (forallb (fun l => (List.length (locs (columns df) l) =? 1)%nat)
                        by_)
          || negb (distinct (by_ ++ [Pos 0]))
  then Raise ValueError
  else
    keys <- getitem 0 df by_ ;;
    let groups := fold_left (fun acc k => tally k acc) (values keys) [] in
    Return {| index := RangeIndex (List.length groups);
              columns := by_ ++ [Pos 0];
              values := map (fun g => fst g ++ [snd g]) groups |}.

(** ** [md_pattern] *)

Definition md_pattern_body (data : dataset) (cols_ : option (list label))
  : result (Table Z) :=
  let cols := match cols_ with Some c => c | None => [] end in
  let r := _is_null data in
  let nmis := sum_axis0 r in
  let r := take_columns false (argsort Z.leb nmis) r in
  pat <- apply_along_axis1 num_string (rows (amap times1 r)) ;;
  let sort_r := amap times1 (take_rows (argsort String.leb pat) r) in
  let sort_r_df := _pattern_output sort_r (Some cols) false in
  sort_r_df <- groupby_size sort_r_df cols ;;
  sort_r_df <- set_columns sort_r_df (cols ++ [Name "count"]) ;;
  sub <- getitem 0 sort_r_df cols ;;
  sort_r_df <- setitem sort_r_df (Name "nmis") (sum_axis1 (values sub)) ;;
  sub <- getitem 0 sort_r_df cols ;;
  let flipped := {| index := index sub; columns := columns sub;
                    values := map (map (fun x => times1 (logical_not x)))
                                  (values sub) |} in
  sort_r_df <- setitems sort_r_df cols flipped ;;
  getitem 0 sort_r_df ([Name "count"] ++ cols ++ [Name "nmis"]).

(** [md_pattern(data, cols)]: the label list is a required argument. *)
Definition md_pattern (data : dataset) (cols : list label) : result (Table Z) :=
  check_dimensions md_pattern_body data (Some cols).

(** ** Floating point

    A finite float is the rational it denotes.  The rounding of the format is
    a parameter: any monotone map that leaves the small integers alone, as
    round-to-nearest does in binary64 up to [2^53].  Signed zeros and the
    exponent range are not modelled (every finite value below is a quotient
    or a sum of counts). *)

Class FloatFormat := mk_format
  { rnd : Q -> Q;
    exact_to : Z;
    rnd_mono : forall x y : Q, (x <= y)%Q -> (rnd x <= rnd y)%Q;
    rnd_int : forall k : Z, 0 <= k <= exact_to ->
                            (rnd (inject_Z k) == inject_Z k)%Q;
    exact_to_pos : 1 <= exact_to }.

Inductive float64 := NaN | Inf (negative : bool) | Fin (q : Q).

Definition Qzero (q : Q) : bool := Qeq_bool q 0.
Definition Qneg (q : Q) : bool := negb (Qle_bool 0 q).

Section Floats.
Context {F : FloatFormat}.

(** Conversion of an integer to a float. *)
Definition of_int (z : Z) : float64 := Fin (rnd (inject_Z z)).

Definition fadd (x y : float64) : float64 :=
  match x, y with
  | NaN, _ | _, NaN => NaN
  | Inf a, Inf b => if Bool.eqb a b then Inf a else NaN
  | Inf a, Fin _ | Fin _, Inf a => Inf a
  | Fin p, Fin q => Fin (rnd (p + q))
  end.

(** Division with the warnings silenced ([np.errstate(divide="ignore",
    invalid="ignore")]): [0/0] is NaN and [x/0] an infinity. *)
Definition fdiv (x y : float64) : float64 :=
  match x, y with
  | NaN, _ | _, NaN => NaN
  | Inf _, Inf _ => NaN
  | Inf a, Fin q => Inf (xorb a (Qneg q))
  | Fin _, Inf _ => Fin 0
  | Fin p, Fin q =>
      if Qzero q then (if Qzero p then NaN else Inf (Qneg p))
      else Fin (rnd (p / q))
  end.

(** [a / b] on two integers: both are converted, then divided. *)
Definition true_divide (a b : Z) : float64 := fdiv (of_int a) (of_int b).

Definition nan_to_zero (x : float64) : float64 :=
  match x with NaN => Fin 0 | _ => x end.

(** [np.nansum(row)]: NaN replaced by zero, then summed. *)
Definition nansum (row : list float64) : float64 :=
  fold_left fadd (map nan_to_zero row) (Fin 0).

(** Element-wise [a / b] and [a + b] on two frames with the same labels. *)
Definition map2 {A B C} (f : A -> B -> C) (u : list A) (v : list B)
  : list C :=
  map (fun xy => f (fst xy) (snd xy)) (combine u v).

Definition table_add (a b : Table Z) : Table Z :=
  {| index := index a; columns := columns a;
     values := map2 (map2 Z.add) (values a) (values b) |}.

Definition table_div (a b : Table Z) : Table float64 :=
  {| index := index a; columns := columns a;
     values := map2 (map2 true_divide) (values a) (values b) |}.

(** ** The coefficients *)

Definition _inbound (pairs : pairs_t) : Table float64 :=
  table_div (mr pairs) (table_add (mr pairs) (mm pairs)).

Definition _outbound (pairs : pairs_t) : Table float64 :=
  table_div (rm pairs) (table_add (rm pairs) (rr pairs)).

Definition _influx (pairs : pairs_t) : list float64 :=
  let num := sum_axis1 (values (mr pairs)) in
  let denom := sum_axis1 (values (table_add (mr pairs) (rr pairs))) in
  map2 true_divide num denom.

Definition _outflux (pairs : pairs_t) : list float64 :=
  let num := sum_axis1 (values (rm pairs)) in
  let denom := sum_axis1 (values (table_add (rm pairs) (mm pairs))) in
  map2 true_divide num denom.

Definition get_stat_for {S} (func : pairs_t -> S) (data : dataset)
  : result S :=
  pairs <- md_pairs data None ;;
  Return (func pairs).

(** [v.reshape(1, n)]: ValueError unless [v] has [n] elements. *)
Definition reshape_row {A} (n : nat) (v : list A) : result (ndarray A) :=
  if (List.length v =? n)%nat then Return {| shape1 := n; rows := [v] |}
  else Raise ValueError.

Definition inbound (data : dataset) (cols : option (list label))
  : result (Table float64) :=
  inbound_coeff <- get_stat_for _inbound data ;;
  Return (_pattern_output (to_array inbound_coeff) cols true).

Definition outbound (data : dataset) (cols : option (list label))
  : result (Table float64) :=
  outbound_coeff <- get_stat_for _outbound data ;;
  Return (_pattern_output (to_array outbound_coeff) cols true).

Definition influx (data : dataset) (cols : option (list label))
  : result (Table float64) :=
  influx_coeff <- get_stat_for _influx data ;;
  influx_coeff <- reshape_row (shape1 data) influx_coeff ;;
  Return (_pattern_output influx_coeff cols false).

Definition outflux (data : dataset) (cols : option (list label))
  : result (Table float64) :=
  outflux_coeff <- get_stat_for _outflux data ;;
  outflux_coeff <- reshape_row (shape1 data) outflux_coeff ;;
  Return (_pattern_output outflux_coeff cols false).

(** ** [flux] *)

(** [np.mean(b, axis=0)] on a boolean array: the number of [True] in each
    column over the number of rows (NaN for an array without rows). *)
Definition mean_axis0 (b : ndarray bool) : list float64 :=
  map (fun s => true_divide s (Z.of_nat (shape0 b))) (sum_axis0 b).

(** [row_mean = lambda row: np.nansum(row)/(len(row) - 1)] *)
Definition row_mean (row : list float64) : float64 :=
  fdiv (nansum row) (of_int (Z.of_nat (List.length row) - 1)).

(** [pd.DataFrame(res, index=cols)] on a dictionary of vectors: one column
    per key, in insertion order; ValueError when a vector and the index
    differ in length. *)
Definition DataFrame (res : list (string * list float64))
  (index_ : list label) : result (Table float64) :=
  if forallb (fun kv => (List.length (snd kv) =? List.length index_)%nat) res
  then Return {| index := index_;
                 columns := map (fun kv => Name (fst kv)) res;
                 values := map (fun i => map (fun kv => nth i (snd kv) NaN) res)
                               (seq 0 (List.length index_)) |}
  else Raise ValueError.

Definition flux (data : dataset) (cols : list label)
  : result (Table float64) :=
  pairs <- md_pairs data None ;;
  let pobs := mean_axis0 (amap logical_not (_is_null data)) in
  ainb <- apply_along_axis1 row_mean (values (_inbound pairs)) ;;
  aout <- apply_along_axis1 row_mean (values (_outbound pairs)) ;;
  let inf := _influx pairs in
  let outf := _outflux pairs in
  let res := [("pobs"%string, pobs); ("influx"%string, inf);
              ("outflux"%string, outf); ("ainb"%string, ainb);
              ("aout"%string, aout)] in
  DataFrame res cols.
End Floats.

(** Exact arithmetic, with every quotient in lowest terms. *)
Lemma Qred_mono (x y : Q) : (x <= y)%Q -> (Qred x <= Qred y)%Q.
Proof. intros H. now rewrite !Qred_correct. Qed.

Lemma Qred_int (k : Z) :
  0 <= k <= 2 ^ 53 -> (Qred (inject_Z k) == inject_Z k)%Q.
Proof. intros _. apply Qred_correct. Qed.

Definition exact : FloatFormat :=
  {| rnd := Qred; exact_to := 2 ^ 53;
     rnd_mono := Qred_mono; rnd_int := Qred_int;
     exact_to_pos := ltac:(lia) |}.

(** ** Specification-level vocabulary *)

(** Whether cell [j] of a row is missing, resp. observed. *)
Definition missing (j : nat) (row : list cell) : bool :=
  match nth_error row j with Some None => true | _ => false end.

Definition observed (j : nat) (row : list cell) : bool :=
  match nth_error row j with Some (Some _) => true | _ => false end.

(** Number of rows of the dataset that satisfy [P]. *)
Definition count_rows (P : list cell -> bool) (data : dataset) : Z :=
  fold_right Z.add 0 (map (fun row => times1 (P row)) (rows data)).

(** Number of rows with status [f] in variable [j] and status [g] in [k]. *)
Definition pair_count (f g : nat -> list cell -> bool) (data : dataset)
  (j k : nat) : Z :=
  count_rows (fun row => f j row && g k row) data.

(** The [p] x [p] matrix with entry [E j k] at row [j], column [k]. *)
Definition tabulate {A} (p : nat) (E : nat -> nat -> A) : list (list A) :=
  map (fun j => map (fun k => E j k) (seq 0 p)) (seq 0 p).

(** The four matrices of [md_pairs], entry by entry, as row counts. *)
Definition pair_matrix (f g : nat -> list cell -> bool) (data : dataset)
  : ndarray Z :=
  {| shape1 := shape1 data;
     rows := tabulate (shape1 data) (pair_count f g data) |}.

(** The result of [md_pairs(data)], without labels. *)
Definition pairs_of (data : dataset) : pairs_t :=
  {| rr := _pattern_output (pair_matrix observed observed data) None true;
     rm := _pattern_output (pair_matrix observed missing data) None true;
     mr := _pattern_output (pair_matrix missing observed data) None true;
     mm := _pattern_output (pair_matrix missing missing data) None true |}.

(** The total of row [j] of a [p] x [p] matrix given by its entries. *)
Definition row_total (p : nat) (E : nat -> Z) : Z :=
  fold_right Z.add 0 (map E (seq 0 p)).

Definition labels_ok (data : dataset) (cols : option (list label)) : Prop :=
  match cols with
  | None => True
  | Some c => List.length c = shape1 data
  end.

Definition fully_observed (data : dataset) : bool :=
  forallb (forallb (fun c : cell => match c with Some _ => true | None => false end))
          (rows data).

Definition fully_missing (data : dataset) : bool :=
  forallb (forallb (fun c : cell => match c with Some _ => false | None => true end))
          (rows data).

(** A float that is finite and equal to the rational [q]. *)
Definition float_is (x : float64) (q : Q) : Prop :=
  match x with Fin p => (p == q)%Q | _ => False end.

(** A float that is NaN or lies in the closed interval [0, 1]. *)
Definition nan_or_unit (x : float64) : Prop :=
  match x with
  | NaN => True
  | Inf _ => False
  | Fin q => (0 <= q <= 1)%Q
  end.

(** A matrix with [n] rows of [p] entries, all of which satisfy [P]. *)
Definition matrix_of {A} (n p : nat) (P : A -> Prop) (m : list (list A))
  : Prop :=
  List.length m = n
  /\ Forall (fun row => List.length row = p /\ Forall P row) m.

(** The sentence "for a fully-observed dataset influx is all-0, outflux is
    all-1 and inbound and outbound are NaN everywhere", read on one dataset. *)
Definition fully_observed_sentence {F : FloatFormat} (data : dataset) : Prop :=
  let p := shape1 data in
  (exists t, influx data None = Return t
             /\ matrix_of 1 p (fun x => float_is x 0) (values t))
  /\ (exists t, outflux data None = Return t
                /\ matrix_of 1 p (fun x => float_is x 1) (values t))
  /\ (exists t, inbound data None = Return t
                /\ matrix_of p p (fun x => x = NaN) (values t))
  /\ (exists t, outbound data None = Return t
                /\ matrix_of p p (fun x => x = NaN) (values t)).

(** The sentence "for a fully-missing dataset influx is all-1 and outflux is
    all-0", read on one dataset. *)
Definition fully_missing_sentence {F : FloatFormat} (data : dataset) : Prop :=
  let p := shape1 data in
  (exists t, influx data None = Return t
             /\ matrix_of 1 p (fun x => float_is x 1) (values t))
  /\ (exists t, outflux data None = Return t
                /\ matrix_of 1 p (fun x => float_is x 0) (values t)).

Definition one_row_observed : dataset :=
  {| shape1 := 2; rows := [[Some 1; Some 1]] |}.

Definition one_row_missing : dataset :=
  {| shape1 := 2; rows := [[None; None]] |}.

Definition no_rows : dataset := {| shape1 := 2; rows := [] |}.

(** A float that is not an infinity. *)
Definition finite_or_nan (x : float64) : Prop :=
  match x with Inf _ => False | _ => True end.

(** A float that is zero once NaN is read as zero, and at most [b] otherwise. *)
Definition at_most {F : FloatFormat} (x : float64) (b : Z) : Prop :=
  match nan_to_zero x with
  | Fin q => (0 <= q <= inject_Z b)%Q
  | _ => False
  end.

(** The missingness indicator with its columns put in the order that
    [md_pattern] computes. *)
Definition reordered (data : dataset) : ndarray bool :=
  take_columns false (argsort Z.leb (sum_axis0 (_is_null data)))
               (_is_null data).

(** The rows that [md_pattern] hands to [groupby]. *)
Definition pattern_keys (data : dataset) : list (list Z) :=
  rows (amap times1
          (take_rows
             (argsort String.leb
                (map num_string (rows (amap times1 (reordered data)))))
             (reordered data))).

Definition pattern_groups (data : dataset) : list (list Z * Z) :=
  fold_left (fun acc k => tally k acc) (pattern_keys data) [].

(** The row of the pattern table for a group: its size, its key with 1 for
    observed, and the total of the key. *)
Definition pattern_row (g : list Z * Z) : list Z :=
  snd g :: map (fun x : Z => times1 (logical_not x)) (fst g)
        ++ [fold_right Z.add 0 (fst g)].

(** Labels that are pairwise distinct and none of [0], [count], [nmis]. *)
Definition clean_labels (cols : list label) : bool :=
  distinct (Pos 0 :: Name "count" :: Name "nmis" :: cols).

(** Number of entries equal to 1. *)
Definition ones (vars : list Z) : Z :=
  Z.of_nat (count_occ Z.eq_dec vars 1).

(** The failing input of the label defect: A is missing once, B never. *)
Definition a_missing_once : dataset :=
  {| shape1 := 2; rows := [[None; Some 1]; [Some 2; Some 3]] |}.

Definition single_column : dataset :=
  {| shape1 := 1; rows := [[Some 1]; [None]] |}.

(** Variable [j] is observed, resp. missing, in every row. *)
Definition completely_observed (j : nat) (data : dataset) : bool :=
  forallb (observed j) (rows data).

Definition completely_missing (j : nat) (data : dataset) : bool :=
  forallb (missing j) (rows data).

(** Variable [k] is observed in every row where variable [j] is missing. *)
Definition observed_where_missing (j k : nat) (data : dataset) : bool :=
  forallb (fun row => implb (missing j row) (observed k row)) (rows data).

(** Two rows, two variables: the first always missing, the second never. *)
Definition first_missing : dataset :=
  {| shape1 := 2; rows := [[None; Some 1]; [None; Some 2]] |}.

(** Strict tuple order on group keys. *)
Definition key_lt (k k' : list Z) : Prop := key_compare k k' = Lt.

(** The variable columns of a row [count :: variables ++ [nmis]] of the
    pattern table of a dataset with [p] variables. *)
Definition shown_pattern (p : nat) (row : list Z) : list Z :=
  firstn p (tl row).

(** The pattern of a dataset row as the table shows it: 1 for observed, 0 for
    missing, the variables taken in the order [perm]. *)
Definition observed_pattern (perm : list nat) (row : list cell) : list Z :=
  map (fun j => times1 (observed j row)) perm.

Definition same_pattern (a b : list Z) : bool :=
  if list_eq_dec Z.eq_dec a b then true else false.

(** The order in which [md_pattern] takes the variables. *)
Definition pattern_order (data : dataset) : list nat :=
  argsort Z.leb (sum_axis0 (_is_null data)).

(** Number of missing cells of the dataset. *)
Definition missing_cells (data : dataset) : Z :=
  fold_right Z.add 0
    (map (fun row => row_total (shape1 data) (fun j => times1 (missing j row)))
         (rows data)).

(** The key that [md_pattern] builds for a dataset row: 1 for missing, the
    variables taken in the order [perm]. *)
Definition key_of (perm : list nat) (row : list cell) : list Z :=
  map (fun j => times1 (missing j row)) perm.

(** Labels none of which is [count] or [nmis], the two names that
    [md_pattern] gives to its own columns. *)
Definition reserved_free (cols : list label) : bool :=
  negb (has_label cols (Name "count")) && negb (has_label cols (Name "nmis")).

(** The sentence "the count column of the table returned by [md_pattern] sums
    to n, and in every row nmis equals p minus the number of 1s among the
    row's variable columns", read on one dataset and one list of labels. *)
Definition md_pattern_sentence (data : dataset) (cols : list label) : Prop :=
  forall t, md_pattern data cols = Return t ->
    fold_right Z.add 0 (map (fun row => nth 0 row 0) (values t))
    = Z.of_nat (shape0 data)
    /\ Forall (fun row =>
                 exists c vars nm,
                   row = c :: vars ++ [nm]
                   /\ List.length vars = shape1 data
                   /\ nm = Z.of_nat (shape1 data) - ones vars)
              (values t).

(** One row, two variables, the first missing. *)
Definition one_row_first_missing : dataset :=
  {| shape1 := 2; rows := [[None; Some 1]] |}.

(** * Properties *)

(** ** Lists *)

Lemma nth_map_seq {A} (f : nat -> A) (d : A) (a n j : nat) :
  (j < n)%nat -> nth j (map f (seq a n)) d = f (a + j)%nat.
Proof.
  intros Hj.
  rewrite (nth_indep _ d (f 0%nat)) by now rewrite length_map, length_seq.
  now rewrite map_nth, seq_nth.
Qed.

Lemma entry_tabulate {A} (E : nat -> nat -> A) (d : A) (p j k : nat) :
  (j < p)%nat -> (k < p)%nat -> entry d (tabulate p E) j k = E j k.
Proof.
  intros Hj Hk. unfold entry, tabulate.
  rewrite (nth_map_seq (fun j => map (fun k => E j k) (seq 0 p)) [] 0 Hj).
  now rewrite (nth_map_seq (fun k => E (0 + j)%nat k) d 0 Hk).
Qed.

Lemma map2_map {A B C X} (f : A -> B -> C) (g : X -> A) (h : X -> B)
  (l : list X) :
  map2 f (map g l) (map h l) = map (fun x => f (g x) (h x)) l.
Proof.
  unfold map2. induction l as [|x l IH]; simpl; [reflexivity|].
  now rewrite IH.
Qed.

Lemma map2_tabulate {A B C} (f : A -> B -> C) p E E' :
  map2 (map2 f) (tabulate p E) (tabulate p E')
  = tabulate p (fun j k => f (E j k) (E' j k)).
Proof.
  unfold tabulate. rewrite map2_map. apply map_ext. intros j.
  now rewrite map2_map.
Qed.

Lemma dot_map {X} (f g : X -> Z) (l : list X) :
  dot (map f l) (map g l) = fold_right Z.add 0 (map (fun x => f x * g x) l).
Proof.
  unfold dot. induction l as [|x l IH]; simpl; [reflexivity|].
  now rewrite IH.
Qed.

Lemma fold_add_ext {X} (f g : X -> Z) (l : list X) :
  (forall x, In x l -> f x = g x) ->
  fold_right Z.add 0 (map f l) = fold_right Z.add 0 (map g l).
Proof.
  intros H. f_equal. apply map_ext_in. exact H.
Qed.

Lemma fold_add_plus {X} (f g : X -> Z) (l : list X) :
  fold_right Z.add 0 (map (fun x => f x + g x) l)
  = fold_right Z.add 0 (map f l) + fold_right Z.add 0 (map g l).
Proof. induction l as [|x l IH]; simpl; [reflexivity|]. rewrite IH. lia. Qed.

Lemma fold_add_const {X} (c : Z) (l : list X) :
  fold_right Z.add 0 (map (fun _ => c) l) = c * Z.of_nat (List.length l).
Proof.
  induction l as [|x l IH]; [simpl; lia|].
  cbn [map fold_right List.length]. rewrite IH. lia.
Qed.

Lemma fold_add_nonneg {X} (f : X -> Z) (l : list X) :
  (forall x, In x l -> 0 <= f x) -> 0 <= fold_right Z.add 0 (map f l).
Proof.
  induction l as [|x l IH]; intros H; simpl; [lia|].
  assert (0 <= f x) by (apply H; now left).
  assert (0 <= fold_right Z.add 0 (map f l)) by (apply IH; intros; apply H; now right).
  lia.
Qed.

Lemma fold_add_le {X} (f g : X -> Z) (l : list X) :
  (forall x, In x l -> f x <= g x) ->
  fold_right Z.add 0 (map f l) <= fold_right Z.add 0 (map g l).
Proof.
  induction l as [|x l IH]; intros H; simpl; [lia|].
  assert (f x <= g x) by (apply H; now left).
  assert (fold_right Z.add 0 (map f l) <= fold_right Z.add 0 (map g l))
    by (apply IH; intros; apply H; now right).
  lia.
Qed.

(** ** Indicator matrices *)

Lemma times1_01 (b : bool) : 0 <= times1 b <= 1.
Proof. destruct b; simpl; lia. Qed.

Lemma nth_R (j : nat) (row : list cell) :
  nth j (map (fun x : bool => times1 (logical_not x))
             (map (fun c : cell => match c with None => true | Some _ => false end)
                  row)) 0
  = times1 (observed j row).
Proof.
  unfold observed. revert j.
  induction row as [|c row IH]; intros [|j]; simpl; try reflexivity.
  - now destruct c.
  - apply IH.
Qed.

Lemma nth_M (j : nat) (row : list cell) :
  nth j (map (fun z : Z => times1 (logical_not z))
          (map (fun x : bool => times1 (logical_not x))
             (map (fun c : cell => match c with None => true | Some _ => false end)
                  row))) 0
  = times1 (missing j row).
Proof.
  unfold missing. revert j.
  induction row as [|c row IH]; intros [|j]; simpl; try reflexivity.
  - now destruct c.
  - apply IH.
Qed.

Lemma column_R (data : dataset) (j : nat) :
  column 0 j (int_ln (_is_null data))
  = map (fun row => times1 (observed j row)) (rows data).
Proof.
  unfold column, int_ln, _is_null, amap. simpl. rewrite !map_map.
  apply map_ext. intros row. apply nth_R.
Qed.

Lemma column_M (data : dataset) (j : nat) :
  column 0 j (int_ln (int_ln (_is_null data)))
  = map (fun row => times1 (missing j row)) (rows data).
Proof.
  unfold column, int_ln, _is_null, amap. simpl. rewrite !map_map.
  apply map_ext. intros row. apply nth_M.
Qed.

Lemma times1_and (a b : bool) : times1 a * times1 b = times1 (a && b).
Proof. now destruct a, b. Qed.

Lemma dot_count (f g : nat -> list cell -> bool) (data : dataset) (j k : nat) :
  dot (map (fun row => times1 (f j row)) (rows data))
      (map (fun row => times1 (g k row)) (rows data))
  = pair_count f g data j k.
Proof.
  rewrite dot_map. unfold pair_count, count_rows.
  apply fold_add_ext. intros row _. apply times1_and.
Qed.

Lemma matmul_T (a b : ndarray Z) (p : nat) :
  shape1 a = p -> shape1 b = p ->
  matmul (T a) b
  = {| shape1 := p;
       rows := tabulate p (fun j k => dot (column 0 j a) (column 0 k b)) |}.
Proof.
  intros Ha Hb. unfold matmul, T, tabulate. simpl.
  rewrite Ha, Hb, map_map. reflexivity.
Qed.

Lemma tabulate_ext {A} (p : nat) (E E' : nat -> nat -> A) :
  (forall j k, E j k = E' j k) -> tabulate p E = tabulate p E'.
Proof.
  intros H. unfold tabulate. apply map_ext. intros j.
  apply map_ext. intros k. apply H.
Qed.

Lemma matmul_T_count (a b : ndarray Z) (f g : nat -> list cell -> bool)
  (data : dataset) :
  shape1 a = shape1 data -> shape1 b = shape1 data ->
  (forall j, column 0 j a = map (fun row => times1 (f j row)) (rows data)) ->
  (forall k, column 0 k b = map (fun row => times1 (g k row)) (rows data)) ->
  matmul (T a) b = pair_matrix f g data.
Proof.
  intros Ha Hb Hf Hg. rewrite (@matmul_T a b (shape1 data) Ha Hb). unfold pair_matrix.
  f_equal. apply tabulate_ext. intros j k. rewrite Hf, Hg. apply dot_count.
Qed.

Lemma md_pairs_body_eq (data : dataset) (cols : option (list label)) :
  md_pairs_body data cols
  = Return
      {| rr := _pattern_output (pair_matrix observed observed data) cols true;
         rm := _pattern_output (pair_matrix observed missing data) cols true;
         mr := _pattern_output (pair_matrix missing observed data) cols true;
         mm := _pattern_output (pair_matrix missing missing data) cols true |}.
Proof.
  unfold md_pairs_body.
  set (r := int_ln (_is_null data)).
  assert (HR : forall j, column 0 j r
                         = map (fun row => times1 (observed j row)) (rows data))
    by (intros; apply column_R).
  assert (HM : forall j, column 0 j (int_ln r)
                         = map (fun row => times1 (missing j row)) (rows data))
    by (intros; apply column_M).
  rewrite (@matmul_T_count r r observed observed data eq_refl eq_refl HR HR).
  rewrite (@matmul_T_count r (int_ln r) observed missing data
             eq_refl eq_refl HR HM).
  rewrite (@matmul_T_count (int_ln r) r missing observed data
             eq_refl eq_refl HM HR).
  rewrite (@matmul_T_count (int_ln r) (int_ln r) missing missing data
             eq_refl eq_refl HM HM).
  reflexivity.
Qed.

Lemma md_pairs_eq (data : dataset) (cols : option (list label)) :
  (2 <= shape1 data)%nat -> labels_ok data cols ->
  md_pairs data cols
  = Return
      {| rr := _pattern_output (pair_matrix observed observed data) cols true;
         rm := _pattern_output (pair_matrix observed missing data) cols true;
         mr := _pattern_output (pair_matrix missing observed data) cols true;
         mm := _pattern_output (pair_matrix missing missing data) cols true |}.
Proof.
  intros Hp Hc. unfold md_pairs, check_dimensions.
  destruct (Nat.ltb_spec (shape1 data) 2) as [Hlt|_]; [lia|].
  destruct cols as [c|]; [|apply md_pairs_body_eq].
  simpl in Hc. rewrite Hc, Nat.eqb_refl. apply md_pairs_body_eq.
Qed.

(** Each row falls in exactly one of the four classes of a pair. *)
Lemma four_classes (row : list cell) (j k : nat) :
  (j < List.length row)%nat -> (k < List.length row)%nat ->
  times1 (observed j row && observed k row)
  + times1 (observed j row && missing k row)
  + times1 (missing j row && observed k row)
  + times1 (missing j row && missing k row) = 1.
Proof.
  intros Hj Hk. unfold observed, missing.
  destruct (nth_error row j) as [[?|]|] eqn:Ej;
    [| |apply nth_error_None in Ej; lia];
    (destruct (nth_error row k) as [[?|]|] eqn:Ek;
     [| |apply nth_error_None in Ek; lia]); reflexivity.
Qed.

Lemma pair_count_total (data : dataset) (j k : nat) :
  well_shaped data -> (j < shape1 data)%nat -> (k < shape1 data)%nat ->
  pair_count observed observed data j k + pair_count observed missing data j k
  + pair_count missing observed data j k + pair_count missing missing data j k
  = Z.of_nat (shape0 data).
Proof.
  intros Hw Hj Hk. unfold pair_count, count_rows, shape0.
  rewrite <- !fold_add_plus.
  rewrite (fold_add_ext _ (fun _ => 1)).
  - rewrite fold_add_const. lia.
  - intros row Hin. unfold well_shaped in Hw. rewrite Forall_forall in Hw.
    specialize (Hw row Hin). apply four_classes; lia.
Qed.

Lemma pair_count_swap (f g : nat -> list cell -> bool) data j k :
  pair_count f g data j k = pair_count g f data k j.
Proof.
  unfold pair_count, count_rows. apply fold_add_ext.
  intros row _. now rewrite andb_comm.
Qed.

Lemma pair_count_nonneg f g data j k : 0 <= pair_count f g data j k.
Proof.
  unfold pair_count, count_rows. apply fold_add_nonneg.
  intros row _. apply times1_01.
Qed.

(** ** C1 *)

(** C1. For a dataset with n rows and p >= 2 columns, [md_pairs] returns four
    matrices with rr + rm + mr + mm = n at every entry (j,k), and mr is the
    transpose of rm. *)
Theorem md_pairs_total_and_transpose (data : dataset)
  (cols : option (list label)) :
  well_shaped data -> (2 <= shape1 data)%nat -> labels_ok data cols ->
  exists pairs,
    md_pairs data cols = Return pairs
    /\ (forall j k, (j < shape1 data)%nat -> (k < shape1 data)%nat ->
          entry 0 (values (rr pairs)) j k + entry 0 (values (rm pairs)) j k
          + entry 0 (values (mr pairs)) j k + entry 0 (values (mm pairs)) j k
          = Z.of_nat (shape0 data))
    /\ values (mr pairs) = rows (T (to_array (rm pairs))).
Proof.
  intros Hw Hp Hc. eexists. split; [apply md_pairs_eq; assumption|].
  split.
  - intros j k Hj Hk. simpl. rewrite !entry_tabulate by assumption.
    now apply pair_count_total.
  - assert (List.length (columns (_pattern_output
               (pair_matrix observed missing data) cols true)) = shape1 data)
      as Hlen.
    { destruct cols as [c|]; simpl in *; [assumption|].
      unfold RangeIndex. now rewrite length_map, length_seq. }
    unfold T, to_array. cbn [rows shape1 rm mr]. rewrite Hlen.
    simpl. unfold tabulate. apply map_ext_in. intros j Hj.
    apply in_seq in Hj. unfold column. cbn [rows]. rewrite map_map.
    apply map_ext. intros k.
    rewrite (nth_map_seq (fun k0 => pair_count observed missing data k k0) 0 0)
      by lia.
    apply pair_count_swap.
Qed.

Lemma md_pairs_total_and_transpose_witness :
  exists pairs,
    md_pairs scenario (Some ABC) = Return pairs
    /\ (forall j k, (j < 3)%nat -> (k < 3)%nat ->
          entry 0 (values (rr pairs)) j k + entry 0 (values (rm pairs)) j k
          + entry 0 (values (mr pairs)) j k + entry 0 (values (mm pairs)) j k
          = 4)
    /\ values (mr pairs) = rows (T (to_array (rm pairs))).
Proof.
  apply (@md_pairs_total_and_transpose scenario (Some ABC)).
  - repeat constructor.
  - simpl; lia.
  - reflexivity.
Defined.

(** ** Rounding and division *)

Section FloatFacts.
Context {F : FloatFormat}.

Lemma rnd_0 : (rnd 0 == 0)%Q.
Proof. apply (@rnd_int F 0). pose proof exact_to_pos. lia. Qed.

Lemma rnd_1 : (rnd 1 == 1)%Q.
Proof. apply (@rnd_int F 1). pose proof exact_to_pos. lia. Qed.

Lemma rnd_proper (x y : Q) : (x == y)%Q -> (rnd x == rnd y)%Q.
Proof.
  intros H. apply Qle_antisym; apply rnd_mono; rewrite H; apply Qle_refl.
Qed.

Lemma rnd_unit (x : Q) : (0 <= x <= 1)%Q -> (0 <= rnd x <= 1)%Q.
Proof.
  intros [H0 H1]. split.
  - rewrite <- rnd_0. now apply rnd_mono.
  - rewrite <- rnd_1. now apply rnd_mono.
Qed.

Lemma rnd_int_nonneg (z : Z) : 0 <= z -> (0 <= rnd (inject_Z z))%Q.
Proof.
  intros Hz. rewrite <- rnd_0. apply rnd_mono.
  change 0%Q with (inject_Z 0). now rewrite <- Zle_Qle.
Qed.

Lemma rnd_int_pos (z : Z) : 1 <= z -> (1 <= rnd (inject_Z z))%Q.
Proof.
  intros Hz. rewrite <- rnd_1. apply rnd_mono.
  change 1%Q with (inject_Z 1). now rewrite <- Zle_Qle.
Qed.

Lemma rnd_int_le (a b : Z) :
  a <= b -> (rnd (inject_Z a) <= rnd (inject_Z b))%Q.
Proof. intros H. apply rnd_mono. now rewrite <- Zle_Qle. Qed.

Lemma Qzero_true (q : Q) : (q == 0)%Q -> Qzero q = true.
Proof. intros H. unfold Qzero. now apply Qeq_bool_iff. Qed.

Lemma Qzero_false (q : Q) : (0 < q)%Q -> Qzero q = false.
Proof.
  intros H. unfold Qzero. destruct (Qeq_bool q 0) eqn:E; [|reflexivity].
  apply Qeq_bool_iff in E. rewrite E in H. now apply Qlt_irrefl in H.
Qed.

(** [0 / 0] is NaN. *)
Lemma true_divide_0_0 : true_divide 0 0 = NaN.
Proof.
  unfold true_divide, of_int, fdiv. change (inject_Z 0) with 0%Q.
  now rewrite (Qzero_true rnd_0).
Qed.

(** A count over a positive, larger count is a finite value in [0, 1]. *)
Lemma true_divide_unit (a b : Z) :
  0 <= a <= b -> 0 < b ->
  exists q, true_divide a b = Fin q /\ (0 <= q <= 1)%Q.
Proof.
  intros [Ha Hab] Hb. unfold true_divide, of_int, fdiv.
  pose proof (rnd_int_pos (z := b) ltac:(lia)) as Hb1.
  pose proof (rnd_int_nonneg Ha) as Ha0.
  pose proof (rnd_int_le Hab) as Hle.
  rewrite Qzero_false by lra.
  eexists. split; [reflexivity|]. apply rnd_unit. split.
  - apply Qle_shift_div_l; lra.
  - apply Qle_shift_div_r; lra.
Qed.

(** Zero over a positive count is zero. *)
Lemma true_divide_0_pos (b : Z) : 0 < b -> float_is (true_divide 0 b) 0.
Proof.
  intros Hb. unfold true_divide, of_int, fdiv.
  pose proof (rnd_int_pos (z := b) ltac:(lia)) as Hb1.
  rewrite Qzero_false by lra. simpl.
  change (inject_Z 0) with 0%Q.
  assert (rnd 0 / rnd (inject_Z b) == 0)%Q as H0
    by (rewrite rnd_0; field; lra).
  rewrite (rnd_proper H0). apply rnd_0.
Qed.

Lemma true_divide_nan_or_unit (a b : Z) :
  0 <= a <= b -> nan_or_unit (true_divide a b).
Proof.
  intros Hab. destruct (Z.eq_dec b 0) as [->|Hb].
  - assert (a = 0) as -> by lia. now rewrite true_divide_0_0.
  - destruct (@true_divide_unit a b Hab ltac:(lia)) as (q & -> & Hq).
    exact Hq.
Qed.

Lemma true_divide_zero_denominator (a b : Z) :
  0 <= a <= b -> b = 0 -> true_divide a b = NaN.
Proof.
  intros Hab ->. assert (a = 0) as -> by lia. apply true_divide_0_0.
Qed.

(** Zero over any count is zero or NaN. *)
Lemma true_divide_0_any (b : Z) :
  0 <= b -> true_divide 0 b = NaN \/ float_is (true_divide 0 b) 0.
Proof.
  intros Hb. destruct (Z.eq_dec b 0) as [->|Hn].
  - left. apply true_divide_0_0.
  - right. apply true_divide_0_pos. lia.
Qed.
End FloatFacts.

(** ** The coefficients, entry by entry *)

Section Coefficients.
Context {F : FloatFormat}.
Variable data : dataset.
Hypothesis Hp : (2 <= shape1 data)%nat.

Let p := shape1 data.
Let RR := pair_count observed observed data.
Let RM := pair_count observed missing data.
Let MR := pair_count missing observed data.
Let MM := pair_count missing missing data.

Lemma get_stat_for_eq {S} (func : pairs_t -> S) :
  get_stat_for func data = Return (func (pairs_of data)).
Proof.
  unfold get_stat_for. now rewrite (@md_pairs_eq data None Hp I).
Qed.

Lemma _inbound_values :
  values (_inbound (pairs_of data))
  = tabulate p (fun j k => true_divide (MR j k) (MR j k + MM j k)).
Proof.
  unfold _inbound, table_div, table_add, pairs_of, _pattern_output, pair_matrix.
  cbn [values mr mm rr rm rows].
  now rewrite !map2_tabulate.
Qed.

Lemma _outbound_values :
  values (_outbound (pairs_of data))
  = tabulate p (fun j k => true_divide (RM j k) (RM j k + RR j k)).
Proof.
  unfold _outbound, table_div, table_add, pairs_of, _pattern_output, pair_matrix.
  cbn [values mr mm rr rm rows].
  now rewrite !map2_tabulate.
Qed.

Lemma sum_axis1_tabulate (E : nat -> nat -> Z) :
  sum_axis1 (tabulate p E) = map (fun j => row_total p (E j)) (seq 0 p).
Proof. unfold sum_axis1, tabulate. now rewrite map_map. Qed.

Lemma _influx_eq :
  _influx (pairs_of data)
  = map (fun j => true_divide (row_total p (MR j))
                    (row_total p (fun k => MR j k + RR j k)))
        (seq 0 p).
Proof.
  unfold _influx, table_add, pairs_of, _pattern_output, pair_matrix.
  cbn [values mr mm rr rm rows].
  rewrite map2_tabulate, !sum_axis1_tabulate. apply map2_map.
Qed.

Lemma _outflux_eq :
  _outflux (pairs_of data)
  = map (fun j => true_divide (row_total p (RM j))
                    (row_total p (fun k => RM j k + MM j k)))
        (seq 0 p).
Proof.
  unfold _outflux, table_add, pairs_of, _pattern_output, pair_matrix.
  cbn [values mr mm rr rm rows].
  rewrite map2_tabulate, !sum_axis1_tabulate. apply map2_map.
Qed.

Lemma inbound_eq (cols : option (list label)) :
  exists t, inbound data cols = Return t
    /\ values t
       = tabulate p (fun j k => true_divide (MR j k) (MR j k + MM j k)).
Proof.
  unfold inbound. rewrite get_stat_for_eq. simpl.
  eexists. split; [reflexivity|]. apply _inbound_values.
Qed.

Lemma outbound_eq (cols : option (list label)) :
  exists t, outbound data cols = Return t
    /\ values t
       = tabulate p (fun j k => true_divide (RM j k) (RM j k + RR j k)).
Proof.
  unfold outbound. rewrite get_stat_for_eq. simpl.
  eexists. split; [reflexivity|]. apply _outbound_values.
Qed.

Lemma influx_eq (cols : option (list label)) :
  exists t, influx data cols = Return t
    /\ values t
       = [map (fun j => true_divide (row_total p (MR j))
                          (row_total p (fun k => MR j k + RR j k)))
              (seq 0 p)].
Proof.
  unfold influx. rewrite get_stat_for_eq. simpl. rewrite _influx_eq.
  unfold reshape_row. rewrite length_map, length_seq.
  fold p. rewrite Nat.eqb_refl. simpl. eexists. split; reflexivity.
Qed.

Lemma outflux_eq (cols : option (list label)) :
  exists t, outflux data cols = Return t
    /\ values t
       = [map (fun j => true_divide (row_total p (RM j))
                          (row_total p (fun k => RM j k + MM j k)))
              (seq 0 p)].
Proof.
  unfold outflux. rewrite get_stat_for_eq. simpl. rewrite _outflux_eq.
  unfold reshape_row. rewrite length_map, length_seq.
  fold p. rewrite Nat.eqb_refl. simpl. eexists. split; reflexivity.
Qed.
End Coefficients.

(** ** Uniform datasets *)

Lemma count_rows_all (P : list cell -> bool) (data : dataset) :
  (forall row, In row (rows data) -> P row = true) ->
  count_rows P data = Z.of_nat (shape0 data).
Proof.
  intros H. unfold count_rows, shape0.
  rewrite (fold_add_ext _ (fun _ => 1)).
  - rewrite fold_add_const. lia.
  - intros row Hin. now rewrite (H row Hin).
Qed.

Lemma count_rows_none (P : list cell -> bool) (data : dataset) :
  (forall row, In row (rows data) -> P row = false) ->
  count_rows P data = 0.
Proof.
  intros H. unfold count_rows.
  rewrite (fold_add_ext _ (fun _ => 0)).
  - rewrite fold_add_const. lia.
  - intros row Hin. now rewrite (H row Hin).
Qed.

Lemma observed_row (row : list cell) (j : nat) :
  forallb (fun c : cell => match c with Some _ => true | None => false end) row
  = true ->
  (j < List.length row)%nat ->
  observed j row = true /\ missing j row = false.
Proof.
  intros Hall Hj. rewrite forallb_forall in Hall.
  unfold observed, missing.
  destruct (nth_error row j) as [c|] eqn:E;
    [|apply nth_error_None in E; lia].
  apply nth_error_In in E. specialize (Hall c E). now destruct c.
Qed.

Lemma missing_row (row : list cell) (j : nat) :
  forallb (fun c : cell => match c with Some _ => false | None => true end) row
  = true ->
  (j < List.length row)%nat ->
  observed j row = false /\ missing j row = true.
Proof.
  intros Hall Hj. rewrite forallb_forall in Hall.
  unfold observed, missing.
  destruct (nth_error row j) as [c|] eqn:E;
    [|apply nth_error_None in E; lia].
  apply nth_error_In in E. specialize (Hall c E). now destruct c.
Qed.

Lemma row_total_ext (p : nat) (E E' : nat -> Z) :
  (forall k, (k < p)%nat -> E k = E' k) -> row_total p E = row_total p E'.
Proof.
  intros H. unfold row_total. apply fold_add_ext.
  intros k Hk. apply in_seq in Hk. apply H. lia.
Qed.

Lemma row_total_const (p : nat) (c : Z) :
  row_total p (fun _ => c) = c * Z.of_nat p.
Proof. unfold row_total. now rewrite fold_add_const, length_seq. Qed.

Lemma matrix_of_tabulate {A} (P : A -> Prop) (p : nat) (E : nat -> nat -> A) :
  (forall j k, (j < p)%nat -> (k < p)%nat -> P (E j k)) ->
  matrix_of p p P (tabulate p E).
Proof.
  intros H. unfold matrix_of, tabulate. split.
  - now rewrite length_map, length_seq.
  - apply Forall_forall. intros row Hin.
    apply in_map_iff in Hin. destruct Hin as (j & <- & Hj).
    apply in_seq in Hj. split.
    + now rewrite length_map, length_seq.
    + apply Forall_forall. intros x Hx.
      apply in_map_iff in Hx. destruct Hx as (k & <- & Hk).
      apply in_seq in Hk. apply H; lia.
Qed.

Lemma matrix_of_row {A} (P : A -> Prop) (p : nat) (E : nat -> A) :
  (forall j, (j < p)%nat -> P (E j)) ->
  matrix_of 1 p P [map E (seq 0 p)].
Proof.
  intros H. split; [reflexivity|]. constructor; [|constructor]. split.
  - now rewrite length_map, length_seq.
  - apply Forall_forall. intros x Hx.
    apply in_map_iff in Hx. destruct Hx as (k & <- & Hk).
    apply in_seq in Hk. apply H; lia.
Qed.

Section Uniform.
Variable data : dataset.
Hypothesis Hw : well_shaped data.

Let p := shape1 data.
Let n := Z.of_nat (shape0 data).

Lemma row_length (row : list cell) :
  In row (rows data) -> List.length row = p.
Proof. intros Hin. unfold well_shaped in Hw. rewrite Forall_forall in Hw. now apply Hw. Qed.

Lemma fully_observed_counts (j k : nat) :
  fully_observed data = true -> (j < p)%nat -> (k < p)%nat ->
  pair_count observed observed data j k = n
  /\ pair_count observed missing data j k = 0
  /\ pair_count missing observed data j k = 0
  /\ pair_count missing missing data j k = 0.
Proof.
  intros Hall Hj Hk. unfold fully_observed in Hall.
  rewrite forallb_forall in Hall.
  assert (forall row, In row (rows data) ->
            observed j row = true /\ missing j row = false
            /\ observed k row = true /\ missing k row = false) as Hrow.
  { intros row Hin. pose proof (row_length _ Hin) as Hl.
    destruct (@observed_row row j (Hall _ Hin) ltac:(lia)).
    destruct (@observed_row row k (Hall _ Hin) ltac:(lia)). tauto. }
  unfold pair_count. repeat split;
    [apply count_rows_all | apply count_rows_none
     | apply count_rows_none | apply count_rows_none];
    intros row Hin; destruct (Hrow row Hin) as (H1 & H2 & H3 & H4);
    rewrite ?H1, ?H2, ?H3, ?H4; reflexivity.
Qed.

Lemma fully_missing_counts (j k : nat) :
  fully_missing data = true -> (j < p)%nat -> (k < p)%nat ->
  pair_count observed observed data j k = 0
  /\ pair_count observed missing data j k = 0
  /\ pair_count missing observed data j k = 0
  /\ pair_count missing missing data j k = n.
Proof.
  intros Hall Hj Hk. unfold fully_missing in Hall.
  rewrite forallb_forall in Hall.
  assert (forall row, In row (rows data) ->
            observed j row = false /\ missing j row = true
            /\ observed k row = false /\ missing k row = true) as Hrow.
  { intros row Hin. pose proof (row_length _ Hin) as Hl.
    destruct (@missing_row row j (Hall _ Hin) ltac:(lia)).
    destruct (@missing_row row k (Hall _ Hin) ltac:(lia)). tauto. }
  unfold pair_count. repeat split;
    [apply count_rows_none | apply count_rows_none
     | apply count_rows_none | apply count_rows_all];
    intros row Hin; destruct (Hrow row Hin) as (H1 & H2 & H3 & H4);
    rewrite ?H1, ?H2, ?H3, ?H4; reflexivity.
Qed.
End Uniform.

(** ** C2 and C5: datasets without missing cells, or with nothing else *)

Section UniformCoefficients.
Context {F : FloatFormat}.
Variable data : dataset.
Variable cols : option (list label).
Hypothesis Hw : well_shaped data.
Hypothesis Hp : (2 <= shape1 data)%nat.
Hypothesis Hn : (1 <= shape0 data)%nat.

Let p := shape1 data.
Let n := Z.of_nat (shape0 data).

Lemma positive_cells : 0 < n * Z.of_nat p.
Proof. unfold n, p. nia. Qed.

Lemma fully_observed_values :
  fully_observed data = true ->
  (exists t, influx data cols = Return t
             /\ matrix_of 1 p (fun x => float_is x 0) (values t))
  /\ (exists t, outflux data cols = Return t
                /\ matrix_of 1 p (fun x => x = NaN) (values t))
  /\ (exists t, inbound data cols = Return t
                /\ matrix_of p p (fun x => x = NaN) (values t))
  /\ (exists t, outbound data cols = Return t
                /\ matrix_of p p (fun x => float_is x 0) (values t)).
Proof.
  intros Hall.
  pose proof (fun j k => @fully_observed_counts data Hw j k Hall) as Hc.
  repeat split.
  - destruct (@influx_eq F data Hp cols) as (t & Ht & Hv). cbv zeta in Hv.
    exists t. split; [exact Ht|]. rewrite Hv. apply matrix_of_row.
    intros j Hj.
    rewrite (@row_total_ext _ _ (fun _ => 0))
      by (intros k Hk; now destruct (Hc j k Hj Hk) as (_ & _ & -> & _)).
    rewrite (@row_total_ext _ (fun k => _ + _) (fun _ => n))
      by (intros k Hk; destruct (Hc j k Hj Hk) as (-> & _ & -> & _);
          reflexivity).
    rewrite !row_total_const. apply true_divide_0_pos.
    apply positive_cells.
  - destruct (@outflux_eq F data Hp cols) as (t & Ht & Hv). cbv zeta in Hv.
    exists t. split; [exact Ht|]. rewrite Hv. apply matrix_of_row.
    intros j Hj.
    rewrite (@row_total_ext _ _ (fun _ => 0))
      by (intros k Hk; now destruct (Hc j k Hj Hk) as (_ & -> & _ & _)).
    rewrite (@row_total_ext _ (fun k => _ + _) (fun _ => 0))
      by (intros k Hk; destruct (Hc j k Hj Hk) as (_ & -> & _ & ->);
          reflexivity).
    rewrite !row_total_const. apply true_divide_0_0.
  - destruct (@inbound_eq F data Hp cols) as (t & Ht & Hv). cbv zeta in Hv.
    exists t. split; [exact Ht|]. rewrite Hv. apply matrix_of_tabulate.
    intros j k Hj Hk. destruct (Hc j k Hj Hk) as (_ & _ & -> & ->).
    apply true_divide_0_0.
  - destruct (@outbound_eq F data Hp cols) as (t & Ht & Hv). cbv zeta in Hv.
    exists t. split; [exact Ht|]. rewrite Hv. apply matrix_of_tabulate.
    intros j k Hj Hk. destruct (Hc j k Hj Hk) as (-> & -> & _ & _).
    apply true_divide_0_pos. unfold n, shape0 in *. simpl. lia.
Qed.

Lemma fully_missing_values :
  fully_missing data = true ->
  (exists t, influx data cols = Return t
             /\ matrix_of 1 p (fun x => x = NaN) (values t))
  /\ (exists t, outflux data cols = Return t
                /\ matrix_of 1 p (fun x => float_is x 0) (values t)).
Proof.
  intros Hall.
  pose proof (fun j k => @fully_missing_counts data Hw j k Hall) as Hc.
  split.
  - destruct (@influx_eq F data Hp cols) as (t & Ht & Hv). cbv zeta in Hv.
    exists t. split; [exact Ht|]. rewrite Hv. apply matrix_of_row.
    intros j Hj.
    rewrite (@row_total_ext _ _ (fun _ => 0))
      by (intros k Hk; now destruct (Hc j k Hj Hk) as (_ & _ & -> & _)).
    rewrite (@row_total_ext _ (fun k => _ + _) (fun _ => 0))
      by (intros k Hk; destruct (Hc j k Hj Hk) as (-> & _ & -> & _);
          reflexivity).
    rewrite !row_total_const. apply true_divide_0_0.
  - destruct (@outflux_eq F data Hp cols) as (t & Ht & Hv). cbv zeta in Hv.
    exists t. split; [exact Ht|]. rewrite Hv. apply matrix_of_row.
    intros j Hj.
    rewrite (@row_total_ext _ _ (fun _ => 0))
      by (intros k Hk; now destruct (Hc j k Hj Hk) as (_ & -> & _ & _)).
    rewrite (@row_total_ext _ (fun k => _ + _) (fun _ => n))
      by (intros k Hk; destruct (Hc j k Hj Hk) as (_ & -> & _ & ->);
          reflexivity).
    rewrite !row_total_const. apply true_divide_0_pos.
    apply positive_cells.
Qed.
End UniformCoefficients.

(** C2 (as stated, refuted).  On the fully observed dataset with one row and
    two columns every entry of [outbound] is 0, not NaN: its denominator
    rm + rr is the number of rows ([outflux] is NaN there, not 1); on the
    fully observed dataset without rows [influx] is NaN, not 0. *)
Lemma fully_observed_sentence_fails :
  fully_observed one_row_observed = true
  /\ ~ @fully_observed_sentence exact one_row_observed
  /\ fully_observed no_rows = true
  /\ ~ @fully_observed_sentence exact no_rows.
Proof.
  split; [reflexivity|]. split; [|split; [reflexivity|]].
  - intros (_ & _ & _ & (t & Ht & Hm)).
    vm_compute in Ht. injection Ht as <-.
    destruct Hm as (_ & Hf). cbn [values] in Hf.
    inversion Hf as [|? ? [_ Hr] _]. inversion Hr as [|? ? Hx _].
    discriminate Hx.
  - intros ((t & Ht & Hm) & _).
    vm_compute in Ht. injection Ht as <-.
    destruct Hm as (_ & Hf). cbn [values] in Hf.
    inversion Hf as [|? ? [_ Hr] _]. inversion Hr as [|? ? Hx _]. exact Hx.
Qed.

(** C2 (amended).  For every fully observed dataset with at least one row and
    p >= 2 columns: [influx] returns 0 for every variable, every entry of the
    inbound matrix is NaN and every entry of the outbound matrix is 0. *)
Theorem fully_observed_coefficients {F : FloatFormat} (data : dataset)
  (cols : option (list label)) :
  well_shaped data -> (2 <= shape1 data)%nat -> (1 <= shape0 data)%nat ->
  fully_observed data = true ->
  (exists t, influx data cols = Return t
             /\ matrix_of 1 (shape1 data) (fun x => float_is x 0) (values t))
  /\ (exists t, inbound data cols = Return t
                /\ matrix_of (shape1 data) (shape1 data) (fun x => x = NaN)
                             (values t))
  /\ (exists t, outbound data cols = Return t
                /\ matrix_of (shape1 data) (shape1 data)
                             (fun x => float_is x 0) (values t)).
Proof.
  intros Hw Hp Hn Hall.
  destruct (@fully_observed_values F data cols Hw Hp Hn Hall)
    as (Hinflux & _ & Hinbound & Houtbound).
  split; [exact Hinflux|]. split; [exact Hinbound|exact Houtbound].
Qed.

Lemma fully_observed_coefficients_witness :
  (exists t, @influx exact one_row_observed None = Return t
             /\ matrix_of 1 2 (fun x => float_is x 0) (values t))
  /\ (exists t, @inbound exact one_row_observed None = Return t
                /\ matrix_of 2 2 (fun x => x = NaN) (values t))
  /\ (exists t, @outbound exact one_row_observed None = Return t
                /\ matrix_of 2 2 (fun x => float_is x 0) (values t)).
Proof.
  apply (@fully_observed_coefficients exact one_row_observed None).
  - repeat constructor.
  - vm_compute; lia.
  - vm_compute; lia.
  - reflexivity.
Defined.

(** C5 (defect of the code).  On the fully missing dataset with one row and
    two columns [influx] returns NaN for both variables, where its docstring
    promises 1 for a completely missing variable: numerator and denominator
    are both 0, no cell being observed. *)
Theorem fully_missing_influx_is_nan :
  fully_missing one_row_missing = true
  /\ @influx exact one_row_missing None
     = Return {| index := [Pos 0]; columns := [Pos 0; Pos 1];
                 values := [[NaN; NaN]] |}
  /\ ~ @fully_missing_sentence exact one_row_missing.
Proof.
  split; [reflexivity|]. split; [reflexivity|].
  intros ((t & Ht & Hm) & _).
  vm_compute in Ht. injection Ht as <-.
  destruct Hm as (_ & Hf). cbn [values] in Hf.
  inversion Hf as [|? ? [_ Hr] _]. inversion Hr as [|? ? Hx _]. exact Hx.
Qed.

(** The same on every fully missing dataset with at least one row and
    p >= 2 columns: [influx] is NaN at every variable, and [outflux] is 0. *)
Lemma fully_missing_coefficients {F : FloatFormat} (data : dataset)
  (cols : option (list label)) :
  well_shaped data -> (2 <= shape1 data)%nat -> (1 <= shape0 data)%nat ->
  fully_missing data = true ->
  (exists t, influx data cols = Return t
             /\ matrix_of 1 (shape1 data) (fun x => x = NaN) (values t))
  /\ (exists t, outflux data cols = Return t
                /\ matrix_of 1 (shape1 data) (fun x => float_is x 0)
                             (values t)).
Proof. intros Hw Hp Hn Hall. now apply fully_missing_values. Qed.

(** ** [flux], entry by entry *)

Lemma nth_logical_not (j : nat) (row : list cell) :
  nth j (map (fun x : bool => logical_not x)
             (map (fun c : cell => match c with None => true | Some _ => false end)
                  row)) false
  = observed j row.
Proof.
  unfold observed. revert j.
  induction row as [|c row IH]; intros [|j]; simpl; try reflexivity.
  - now destruct c.
  - apply IH.
Qed.

Lemma sum_axis0_observed (data : dataset) :
  sum_axis0 (amap logical_not (_is_null data))
  = map (fun j => count_rows (observed j) data) (seq 0 (shape1 data)).
Proof.
  unfold sum_axis0, count_rows, column, _is_null, amap. simpl.
  apply map_ext. intros j. rewrite !map_map. f_equal.
  apply map_ext. intros row. f_equal. apply nth_logical_not.
Qed.

Lemma shape0_amap {A B} (f : A -> B) (a : ndarray A) :
  shape0 (amap f a) = shape0 a.
Proof. unfold shape0, amap. cbn [rows]. apply length_map. Qed.

Lemma apply_along_axis1_tabulate {A B} (f : list A -> B) (p : nat)
  (E : nat -> nat -> A) :
  (1 <= p)%nat ->
  apply_along_axis1 f (tabulate p E)
  = Return (map (fun j => f (map (E j) (seq 0 p))) (seq 0 p)).
Proof.
  intros Hp. unfold apply_along_axis1.
  destruct (tabulate p E) as [|row rest] eqn:Hrows.
  - apply (f_equal (@List.length _)) in Hrows.
    unfold tabulate in Hrows. rewrite length_map, length_seq in Hrows.
    simpl in Hrows. lia.
  - rewrite <- Hrows. unfold tabulate. now rewrite map_map.
Qed.

Section Flux.
Context {F : FloatFormat}.
Variable data : dataset.
Variable cols : list label.
Hypothesis Hp : (2 <= shape1 data)%nat.
Hypothesis Hcols : List.length cols = shape1 data.

Let p := shape1 data.
Let n := Z.of_nat (shape0 data).
Let RR := pair_count observed observed data.
Let RM := pair_count observed missing data.
Let MR := pair_count missing observed data.
Let MM := pair_count missing missing data.

Lemma flux_eq :
  flux data cols
  = Return
      {| index := cols;
         columns := [Name "pobs"; Name "influx"; Name "outflux";
                     Name "ainb"; Name "aout"];
         values :=
           map (fun j =>
              [ true_divide (count_rows (observed j) data) n;
                true_divide (row_total p (MR j))
                            (row_total p (fun k => MR j k + RR j k));
                true_divide (row_total p (RM j))
                            (row_total p (fun k => RM j k + MM j k));
                row_mean (map (fun k => true_divide (MR j k)
                                          (MR j k + MM j k)) (seq 0 p));
                row_mean (map (fun k => true_divide (RM j k)
                                          (RM j k + RR j k)) (seq 0 p)) ])
               (seq 0 p) |}.
Proof.
  unfold flux. rewrite (@md_pairs_eq data None Hp I). cbn [bind].
  rewrite (_inbound_values data), (_outbound_values data).
  rewrite !apply_along_axis1_tabulate by lia. cbn [bind].
  rewrite (_influx_eq data), (_outflux_eq data).
  unfold mean_axis0. rewrite sum_axis0_observed, map_map.
  unfold DataFrame. cbn [forallb snd fst map].
  rewrite !length_map, !length_seq, Hcols, Nat.eqb_refl. cbn [andb].
  f_equal. f_equal. apply map_ext_in. intros j Hj. apply in_seq in Hj.
  rewrite !(nth_map_seq _ NaN 0 (n:=shape1 data)) by lia.
  cbn [Nat.add]. unfold _is_null. rewrite !shape0_amap. reflexivity.
Qed.
End Flux.

(** ** NaN-safe sums and row means *)

Lemma Forall2_map_same {X A B} (R : A -> B -> Prop) (f : X -> A) (g : X -> B)
  (l : list X) :
  (forall x, In x l -> R (f x) (g x)) -> Forall2 R (map f l) (map g l).
Proof.
  induction l as [|x l IH]; intros H; simpl; constructor.
  - apply H. now left.
  - apply IH. intros y Hy. apply H. now right.
Qed.

Lemma sum_off_diagonal_from (j n a : nat) :
  fold_right Z.add 0
    (map (fun k => if (k =? j)%nat then 0 else 1) (seq a n))
  = Z.of_nat n - (if ((a <=? j) && (j <? a + n))%nat then 1 else 0).
Proof.
  revert a. induction n as [|n IH]; intros a.
  - cbn [seq map fold_right]. rewrite Nat.add_0_r.
    destruct (Nat.leb_spec a j), (Nat.ltb_spec j a); cbn [andb]; lia.
  - cbn [seq map fold_right]. rewrite IH.
    destruct (Nat.eqb_spec a j) as [->|Hne].
    + destruct (Nat.leb_spec (S j) j); [lia|].
      destruct (Nat.leb_spec j j); [|lia].
      destruct (Nat.ltb_spec j (j + S n)); [|lia]. cbn [andb]. lia.
    + destruct (Nat.leb_spec (S a) j), (Nat.leb_spec a j),
        (Nat.ltb_spec j (S a + n)), (Nat.ltb_spec j (a + S n));
        cbn [andb]; lia.
Qed.

Lemma sum_off_diagonal (j p : nat) :
  (j < p)%nat ->
  fold_right Z.add 0 (map (fun k => if (k =? j)%nat then 0 else 1) (seq 0 p))
  = Z.of_nat p - 1.
Proof.
  intros Hj. rewrite sum_off_diagonal_from.
  destruct (Nat.leb_spec 0 j); [|lia].
  destruct (Nat.ltb_spec j (0 + p)); [|lia]. reflexivity.
Qed.

Section Sums.
Context {F : FloatFormat}.

Lemma fold_fadd_finite (row : list float64) (a : Q) :
  Forall finite_or_nan row ->
  exists q, fold_left fadd (map nan_to_zero row) (Fin a) = Fin q.
Proof.
  intros H. revert a. induction H as [|x row Hx _ IH]; intros a.
  - now exists a.
  - destruct x as [|neg|q]; simpl in *; [apply IH|contradiction|apply IH].
Qed.

Lemma nansum_finite (row : list float64) :
  Forall finite_or_nan row -> exists q, nansum row = Fin q.
Proof. apply fold_fadd_finite. Qed.

Lemma fold_fadd_bound (row : list float64) (bs : list Z) :
  Forall2 at_most row bs ->
  forall (a : Q) (A : Z),
    (0 <= a <= inject_Z A)%Q ->
    Forall (fun b => 0 <= b) bs ->
    A + fold_right Z.add 0 bs <= exact_to ->
    exists q, fold_left fadd (map nan_to_zero row) (Fin a) = Fin q
              /\ (0 <= q <= inject_Z (A + fold_right Z.add 0%Z bs))%Q.
Proof.
  induction 1 as [|x b row bs Hx _ IH]; intros a A Ha Hbs Hex.
  - exists a. split; [reflexivity|]. simpl. now rewrite Z.add_0_r.
  - inversion Hbs as [|? ? Hb Hbs']; subst.
    cbn [fold_right] in *. cbn [map fold_left].
    unfold at_most in Hx.
    destruct (nan_to_zero x) as [|neg|q] eqn:Ex; try contradiction.
    cbn [fadd].
    assert (0 <= A)
      by (rewrite Zle_Qle; change (inject_Z 0) with 0%Q; lra).
    assert (0 <= fold_right Z.add 0 bs).
    { clear - Hbs'. induction Hbs'; simpl; lia. }
    assert (0 <= rnd (a + q) <= inject_Z (A + b))%Q as Hnew.
    { split.
      - rewrite <- rnd_0. apply rnd_mono. lra.
      - rewrite <- (@rnd_int F (A + b)) by lia.
        apply rnd_mono. rewrite inject_Z_plus. lra. }
    destruct (IH (rnd (a + q)) (A + b) Hnew Hbs' ltac:(lia)) as (r & Hr & Hq).
    exists r. split; [exact Hr|].
    now replace (A + (b + fold_right Z.add 0 bs))
      with (A + b + fold_right Z.add 0 bs) by lia.
Qed.

Lemma nan_or_unit_at_most (x : float64) : nan_or_unit x -> at_most x 1.
Proof.
  unfold at_most. destruct x as [|neg|q]; simpl; try tauto.
  intros _. change (inject_Z 1) with 1%Q. lra.
Qed.

Lemma zero_or_nan_at_most (x : float64) :
  x = NaN \/ float_is x 0 -> at_most x 0.
Proof.
  unfold at_most. intros [->|H]; simpl.
  - change (inject_Z 0) with 0%Q. lra.
  - destruct x as [|neg|q]; simpl in *; try contradiction.
    change (inject_Z 0) with 0%Q. lra.
Qed.

Lemma fdiv_by_count (q : Q) (m : Z) :
  1 <= m -> exists r, fdiv (Fin q) (of_int m) = Fin r
                      /\ (r == rnd (q / rnd (inject_Z m)))%Q.
Proof.
  intros Hm. unfold of_int, fdiv.
  pose proof (rnd_int_pos Hm).
  rewrite Qzero_false by lra. eexists. split; reflexivity.
Qed.

(** A row mean is finite as soon as the row holds no infinity. *)
Lemma row_mean_finite (row : list float64) :
  (2 <= List.length row)%nat -> Forall finite_or_nan row ->
  exists q, row_mean row = Fin q.
Proof.
  intros Hlen Hrow. unfold row_mean.
  destruct (nansum_finite Hrow) as (q & ->).
  destruct (@fdiv_by_count q (Z.of_nat (List.length row) - 1) ltac:(lia))
    as (r & -> & _).
  now exists r.
Qed.

(** The mean of a row of [p] entries, all NaN or in [0, 1] and the [j]-th
    zero or NaN, lies in [0, 1]. *)
Lemma row_mean_unit (E : nat -> float64) (p j : nat) :
  (2 <= p)%nat -> Z.of_nat p - 1 <= exact_to -> (j < p)%nat ->
  (forall k, (k < p)%nat -> nan_or_unit (E k)) ->
  (E j = NaN \/ float_is (E j) 0) ->
  exists q, row_mean (map E (seq 0 p)) = Fin q /\ (0 <= q <= 1)%Q.
Proof.
  intros Hp Hex Hj Hall Hdiag. unfold row_mean, nansum.
  rewrite length_map, length_seq.
  assert (Forall2 at_most (map E (seq 0 p))
            (map (fun k => if (k =? j)%nat then 0 else 1) (seq 0 p))) as H2.
  { apply Forall2_map_same. intros k Hk. apply in_seq in Hk.
    destruct (Nat.eqb_spec k j) as [->|Hne].
    - now apply zero_or_nan_at_most.
    - apply nan_or_unit_at_most. apply Hall. lia. }
  destruct (@fold_fadd_bound _ _ H2 0%Q 0) as (q & Hq & Hb).
  - change (inject_Z 0) with 0%Q. lra.
  - apply Forall_forall. intros b Hb. apply in_map_iff in Hb.
    destruct Hb as (k & <- & _). destruct (k =? j)%nat; lia.
  - rewrite sum_off_diagonal by assumption. lia.
  - rewrite Hq. rewrite sum_off_diagonal in Hb by assumption.
    destruct (@fdiv_by_count q (Z.of_nat p - 1) ltac:(lia)) as (r & -> & Hr).
    exists r. split; [reflexivity|]. rewrite Hr.
    simpl in Hb.
    pose proof (@rnd_int F (Z.of_nat p - 1) ltac:(lia)) as Hint.
    assert (1 <= inject_Z (Z.of_nat p - 1))%Q
      by (change 1%Q with (inject_Z 1); rewrite <- Zle_Qle; lia).
    apply rnd_unit. split.
    + apply Qle_shift_div_l; lra.
    + apply Qle_shift_div_r; lra.
Qed.
End Sums.

(** ** Counts *)

Lemma missing_observed_exclusive (j : nat) (row : list cell) :
  missing j row && observed j row = false.
Proof.
  unfold missing, observed. now destruct (nth_error row j) as [[?|]|].
Qed.

Lemma pair_count_mr_diag (data : dataset) (j : nat) :
  pair_count missing observed data j j = 0.
Proof.
  unfold pair_count. apply count_rows_none.
  intros row _. apply missing_observed_exclusive.
Qed.

Lemma pair_count_rm_diag (data : dataset) (j : nat) :
  pair_count observed missing data j j = 0.
Proof. rewrite pair_count_swap. apply pair_count_mr_diag. Qed.

Lemma count_rows_bounds (P : list cell -> bool) (data : dataset) :
  0 <= count_rows P data <= Z.of_nat (shape0 data).
Proof.
  unfold count_rows, shape0. split.
  - apply fold_add_nonneg. intros row _. apply times1_01.
  - rewrite <- (Z.mul_1_l (Z.of_nat _)), <- fold_add_const.
    apply fold_add_le. intros row _. apply times1_01.
Qed.

Lemma row_total_nonneg (p : nat) (E : nat -> Z) :
  (forall k, 0 <= E k) -> 0 <= row_total p E.
Proof. intros H. unfold row_total. apply fold_add_nonneg. intros; apply H. Qed.

Lemma row_total_le (p : nat) (E E' : nat -> Z) :
  (forall k, E k <= E' k) -> row_total p E <= row_total p E'.
Proof. intros H. unfold row_total. apply fold_add_le. intros; apply H. Qed.

(** Every coefficient is a count over a larger count. *)
Lemma ratio_bounds (f g h : nat -> list cell -> bool) (data : dataset)
  (j k : nat) :
  0 <= pair_count f g data j k
    <= pair_count f g data j k + pair_count h g data j k.
Proof.
  pose proof (pair_count_nonneg f g data j k).
  pose proof (pair_count_nonneg h g data j k). lia.
Qed.

Lemma total_ratio_bounds (p : nat) (E E' : nat -> Z) :
  (forall k, 0 <= E k) -> (forall k, 0 <= E' k) ->
  0 <= row_total p E <= row_total p (fun k => E k + E' k).
Proof.
  intros H H'. split; [now apply row_total_nonneg|].
  apply row_total_le. intros k. specialize (H' k). lia.
Qed.

Lemma zero_or_nan_neutral {F : FloatFormat} (x : float64) :
  x = NaN \/ float_is x 0 -> float_is (nan_to_zero x) 0.
Proof.
  intros [->|H]; [simpl; apply Qeq_refl|].
  destruct x as [|neg|q]; try contradiction; exact H.
Qed.

(** ** C7 *)

(** C7. For a dataset with fewer than 2 columns each of [md_pairs],
    [md_pattern], [inbound], [outbound], [influx], [outflux] and [flux] raises
    DimensionError, so that none of them returns a result. *)
Theorem fewer_than_two_columns_raise {F : FloatFormat} (data : dataset)
  (cols : option (list label)) (labels : list label) :
  (shape1 data < 2)%nat ->
  md_pairs data cols = Raise DimensionError
  /\ md_pattern data labels = Raise DimensionError
  /\ inbound data cols = Raise DimensionError
  /\ outbound data cols = Raise DimensionError
  /\ influx data cols = Raise DimensionError
  /\ outflux data cols = Raise DimensionError
  /\ flux data labels = Raise DimensionError.
Proof.
  intros Hp.
  assert (forall B (f : dataset -> option (list label) -> result B) c,
             check_dimensions f data c = Raise DimensionError) as Hcheck.
  { intros B f c. unfold check_dimensions.
    destruct (Nat.ltb_spec (shape1 data) 2); [reflexivity|lia]. }
  unfold inbound, outbound, influx, outflux, flux, get_stat_for,
    md_pattern, md_pairs.
  rewrite !Hcheck. repeat split; reflexivity.
Qed.

Lemma fewer_than_two_columns_raise_witness :
  md_pairs single_column None = Raise DimensionError
  /\ md_pattern single_column [Name "A"] = Raise DimensionError
  /\ @inbound exact single_column None = Raise DimensionError
  /\ @outbound exact single_column None = Raise DimensionError
  /\ @influx exact single_column None = Raise DimensionError
  /\ @outflux exact single_column None = Raise DimensionError
  /\ @flux exact single_column [Name "A"] = Raise DimensionError.
Proof.
  apply (@fewer_than_two_columns_raise exact single_column None [Name "A"]).
  vm_compute; lia.
Defined.

(** ** C10 *)

(** C10. For a dataset with p >= 2 columns, mr[j,j] = rm[j,j] = 0, every
    diagonal entry of the inbound and of the outbound matrix is 0 or NaN, and
    it counts as zero in the NaN-as-zero sums behind ainb and aout. *)
Theorem self_pair_is_zero_or_nan {F : FloatFormat} (data : dataset)
  (cols : option (list label)) :
  (2 <= shape1 data)%nat ->
  exists pairs ti to,
    md_pairs data None = Return pairs
    /\ inbound data cols = Return ti
    /\ outbound data cols = Return to
    /\ matrix_of (shape1 data) (shape1 data) (fun _ => True) (values ti)
    /\ matrix_of (shape1 data) (shape1 data) (fun _ => True) (values to)
    /\ forall j, (j < shape1 data)%nat ->
         entry 1 (values (mr pairs)) j j = 0
         /\ entry 1 (values (rm pairs)) j j = 0
         /\ (entry (Fin 1) (values ti) j j = NaN
             \/ float_is (entry (Fin 1) (values ti) j j) 0)
         /\ (entry (Fin 1) (values to) j j = NaN
             \/ float_is (entry (Fin 1) (values to) j j) 0)
         /\ float_is (nan_to_zero (entry (Fin 1) (values ti) j j)) 0
         /\ float_is (nan_to_zero (entry (Fin 1) (values to) j j)) 0.
Proof.
  intros Hp.
  destruct (@inbound_eq F data Hp cols) as (ti & Hti & Hvi).
  destruct (@outbound_eq F data Hp cols) as (to & Hto & Hvo).
  cbv zeta in Hvi, Hvo.
  eexists. exists ti, to.
  split; [apply (@md_pairs_eq data None Hp I)|].
  split; [exact Hti|]. split; [exact Hto|].
  rewrite Hvi, Hvo.
  split; [now apply matrix_of_tabulate|].
  split; [now apply matrix_of_tabulate|].
  intros j Hj. cbn [mr rm values _pattern_output pair_matrix rows].
  rewrite !entry_tabulate by assumption.
  rewrite pair_count_mr_diag, pair_count_rm_diag.
  pose proof (@true_divide_0_any F (0 + pair_count missing missing data j j)
                ltac:(pose proof (pair_count_nonneg missing missing data j j);
                      lia)) as Hi.
  pose proof (@true_divide_0_any F (0 + pair_count observed observed data j j)
                ltac:(pose proof (pair_count_nonneg observed observed data j j);
                      lia)) as Ho.
  repeat split; try assumption; now apply zero_or_nan_neutral.
Qed.

Lemma self_pair_is_zero_or_nan_witness :
  exists pairs ti to,
    md_pairs scenario None = Return pairs
    /\ @inbound exact scenario (Some ABC) = Return ti
    /\ @outbound exact scenario (Some ABC) = Return to
    /\ matrix_of 3 3 (fun _ => True) (values ti)
    /\ matrix_of 3 3 (fun _ => True) (values to)
    /\ forall j, (j < 3)%nat ->
         entry 1 (values (mr pairs)) j j = 0
         /\ entry 1 (values (rm pairs)) j j = 0
         /\ (entry (Fin 1) (values ti) j j = NaN
             \/ float_is (entry (Fin 1) (values ti) j j) 0)
         /\ (entry (Fin 1) (values to) j j = NaN
             \/ float_is (entry (Fin 1) (values to) j j) 0)
         /\ float_is (nan_to_zero (entry (Fin 1) (values ti) j j)) 0
         /\ float_is (nan_to_zero (entry (Fin 1) (values to) j j)) 0.
Proof.
  apply (@self_pair_is_zero_or_nan exact scenario (Some ABC)).
  vm_compute; lia.
Defined.

(** ** C8, C9 and C6: the report of [flux] *)

Lemma matrix_of_rows {A} (P : A -> Prop) (p c : nat) (R : nat -> list A) :
  (forall j, (j < p)%nat -> List.length (R j) = c /\ Forall P (R j)) ->
  matrix_of p c P (map R (seq 0 p)).
Proof.
  intros H. split.
  - now rewrite length_map, length_seq.
  - apply Forall_forall. intros row Hin.
    apply in_map_iff in Hin. destruct Hin as (j & <- & Hj).
    apply in_seq in Hj. apply H. lia.
Qed.

Lemma nan_or_unit_finite (x : float64) : nan_or_unit x -> finite_or_nan x.
Proof. now destruct x. Qed.

Lemma nth_tabulate {A} (E : nat -> nat -> A) (p j : nat) :
  (j < p)%nat -> nth j (tabulate p E) [] = map (E j) (seq 0 p).
Proof.
  intros Hj. unfold tabulate.
  now rewrite (nth_map_seq (fun j => map (fun k => E j k) (seq 0 p)) [] 0 Hj).
Qed.

Lemma nansum_nan_to_zero {F : FloatFormat} (row : list float64) :
  nansum (map nan_to_zero row) = nansum row.
Proof.
  unfold nansum. rewrite map_map. f_equal. apply map_ext.
  now intros [|neg|q].
Qed.

Lemma row_mean_nan_to_zero {F : FloatFormat} (row : list float64) :
  row_mean (map nan_to_zero row) = row_mean row.
Proof. unfold row_mean. now rewrite nansum_nan_to_zero, length_map. Qed.

Section Report.
Context {F : FloatFormat}.
Variable data : dataset.
Variable labels : list label.
Hypothesis Hp : (2 <= shape1 data)%nat.
Hypothesis Hlabels : List.length labels = shape1 data.

Let p := shape1 data.

Lemma inbound_entry_unit (j k : nat) :
  nan_or_unit
    (true_divide (pair_count missing observed data j k)
       (pair_count missing observed data j k
        + pair_count missing missing data j k)).
Proof.
  apply true_divide_nan_or_unit.
  pose proof (pair_count_nonneg missing observed data j k).
  pose proof (pair_count_nonneg missing missing data j k). lia.
Qed.

Lemma outbound_entry_unit (j k : nat) :
  nan_or_unit
    (true_divide (pair_count observed missing data j k)
       (pair_count observed missing data j k
        + pair_count observed observed data j k)).
Proof.
  apply true_divide_nan_or_unit.
  pose proof (pair_count_nonneg observed missing data j k).
  pose proof (pair_count_nonneg observed observed data j k). lia.
Qed.

Lemma influx_entry_unit (j : nat) :
  nan_or_unit
    (true_divide (row_total p (pair_count missing observed data j))
       (row_total p (fun k => pair_count missing observed data j k
                              + pair_count observed observed data j k))).
Proof.
  apply true_divide_nan_or_unit.
  apply total_ratio_bounds; intros k; apply pair_count_nonneg.
Qed.

Lemma outflux_entry_unit (j : nat) :
  nan_or_unit
    (true_divide (row_total p (pair_count observed missing data j))
       (row_total p (fun k => pair_count observed missing data j k
                              + pair_count missing missing data j k))).
Proof.
  apply true_divide_nan_or_unit.
  apply total_ratio_bounds; intros k; apply pair_count_nonneg.
Qed.

Lemma pobs_entry_unit (j : nat) :
  nan_or_unit (true_divide (count_rows (observed j) data)
                           (Z.of_nat (shape0 data))).
Proof. apply true_divide_nan_or_unit. apply count_rows_bounds. Qed.

Lemma inbound_diag (j : nat) :
  let x := true_divide (pair_count missing observed data j j)
             (pair_count missing observed data j j
              + pair_count missing missing data j j) in
  x = NaN \/ float_is x 0.
Proof.
  cbv zeta. rewrite pair_count_mr_diag. apply true_divide_0_any.
  pose proof (pair_count_nonneg missing missing data j j). lia.
Qed.

Lemma outbound_diag (j : nat) :
  let x := true_divide (pair_count observed missing data j j)
             (pair_count observed missing data j j
              + pair_count observed observed data j j) in
  x = NaN \/ float_is x 0.
Proof.
  cbv zeta. rewrite pair_count_rm_diag. apply true_divide_0_any.
  pose proof (pair_count_nonneg observed observed data j j). lia.
Qed.

Lemma flux_unit :
  Z.of_nat p - 1 <= exact_to ->
  exists t, flux data labels = Return t
            /\ matrix_of p 5 nan_or_unit (values t).
Proof.
  intros Hex. eexists. split; [apply (@flux_eq F data labels Hp Hlabels)|].
  cbn [values]. apply matrix_of_rows. intros j Hj.
  split; [reflexivity|].
  destruct (@row_mean_unit F
              (fun k => true_divide (pair_count missing observed data j k)
                          (pair_count missing observed data j k
                           + pair_count missing missing data j k))
              p j Hp Hex Hj (fun k _ => inbound_entry_unit j k)
              (inbound_diag j)) as (qi & Hqi & Hbi).
  destruct (@row_mean_unit F
              (fun k => true_divide (pair_count observed missing data j k)
                          (pair_count observed missing data j k
                           + pair_count observed observed data j k))
              p j Hp Hex Hj (fun k _ => outbound_entry_unit j k)
              (outbound_diag j)) as (qo & Hqo & Hbo).
  fold p. rewrite Hqi, Hqo.
  repeat constructor;
    first [ apply pobs_entry_unit | apply influx_entry_unit
          | apply outflux_entry_unit | apply Hbi | apply Hbo ].
Qed.

Lemma flux_complete :
  exists t, flux data labels = Return t
    /\ index t = labels
    /\ matrix_of p 5 finite_or_nan (values t)
    /\ forall j, (j < p)%nat ->
         (exists q,
            entry (Fin 1) (values t) j 3 = Fin q
            /\ Fin q
               = row_mean
                   (map nan_to_zero
                      (map (fun k =>
                              true_divide (pair_count missing observed data j k)
                                (pair_count missing observed data j k
                                 + pair_count missing missing data j k))
                           (seq 0 p))))
         /\ (exists q,
            entry (Fin 1) (values t) j 4 = Fin q
            /\ Fin q
               = row_mean
                   (map nan_to_zero
                      (map (fun k =>
                              true_divide (pair_count observed missing data j k)
                                (pair_count observed missing data j k
                                 + pair_count observed observed data j k))
                           (seq 0 p)))).
Proof.
  eexists. split; [apply (@flux_eq F data labels Hp Hlabels)|].
  split; [reflexivity|].
  assert (forall (E : nat -> float64),
             (forall k, nan_or_unit (E k)) ->
             exists q, row_mean (map E (seq 0 p)) = Fin q) as Hfin.
  { intros E HE. apply row_mean_finite.
    - rewrite length_map, length_seq. exact Hp.
    - apply Forall_forall. intros x Hx. apply in_map_iff in Hx.
      destruct Hx as (k & <- & _). apply nan_or_unit_finite, HE. }
  cbn [values]. split.
  - apply matrix_of_rows. intros j Hj. split; [reflexivity|].
    destruct (Hfin _ (inbound_entry_unit j)) as (qi & Hqi).
    destruct (Hfin _ (outbound_entry_unit j)) as (qo & Hqo).
    fold p. rewrite Hqi, Hqo.
    repeat constructor; apply nan_or_unit_finite;
      first [ apply pobs_entry_unit | apply influx_entry_unit
            | apply outflux_entry_unit ].
  - intros j Hj. unfold entry.
    rewrite (nth_map_seq _ [] 0 Hj). cbn [nth Nat.add].
    rewrite !row_mean_nan_to_zero.
    destruct (Hfin _ (inbound_entry_unit j)) as (qi & Hqi).
    destruct (Hfin _ (outbound_entry_unit j)) as (qo & Hqo).
    fold p. rewrite Hqi, Hqo.
    split; eexists; split; reflexivity.
Qed.
End Report.

(** C9. For a dataset with p >= 2 columns every entry of the table returned by
    [flux] is NaN or a float in the closed interval [0, 1] (the rounding is
    exact on the integers up to p - 1). *)
Theorem flux_entries_nan_or_unit {F : FloatFormat} (data : dataset)
  (labels : list label) :
  (2 <= shape1 data)%nat -> List.length labels = shape1 data ->
  Z.of_nat (shape1 data) - 1 <= exact_to ->
  exists t, flux data labels = Return t
            /\ matrix_of (shape1 data) 5 nan_or_unit (values t).
Proof. intros Hp Hl Hex. now apply flux_unit. Qed.

Lemma flux_entries_nan_or_unit_witness :
  exists t, @flux exact scenario ABC = Return t
            /\ matrix_of 3 5 nan_or_unit (values t).
Proof.
  apply (@flux_entries_nan_or_unit exact scenario ABC).
  - vm_compute; lia.
  - reflexivity.
  - vm_compute; discriminate.
Defined.



(** C6. For a dataset with p >= 2 columns the four coefficients return a
    result, an entry whose denominator is zero being NaN in it; [flux] returns
    its complete table of p rows and five columns, none of them infinite, in
    which ainb[j] and aout[j] are finite: the row means of the inbound and
    outbound rows with every NaN replaced by zero. *)
Theorem zero_denominator_is_nan {F : FloatFormat} (data : dataset)
  (cols : option (list label)) (labels : list label) :
  (2 <= shape1 data)%nat -> List.length labels = shape1 data ->
  exists pairs ti to tin tout tf,
    md_pairs data None = Return pairs
    /\ inbound data cols = Return ti
    /\ outbound data cols = Return to
    /\ influx data cols = Return tin
    /\ outflux data cols = Return tout
    /\ flux data labels = Return tf
    /\ (forall j k, (j < shape1 data)%nat -> (k < shape1 data)%nat ->
          entry 1 (values (table_add (mr pairs) (mm pairs))) j k = 0 ->
          entry (Fin 1) (values ti) j k = NaN)
    /\ (forall j k, (j < shape1 data)%nat -> (k < shape1 data)%nat ->
          entry 1 (values (table_add (rm pairs) (rr pairs))) j k = 0 ->
          entry (Fin 1) (values to) j k = NaN)
    /\ (forall j, (j < shape1 data)%nat ->
          nth j (sum_axis1 (values (table_add (mr pairs) (rr pairs)))) 1 = 0 ->
          entry (Fin 1) (values tin) 0 j = NaN)
    /\ (forall j, (j < shape1 data)%nat ->
          nth j (sum_axis1 (values (table_add (rm pairs) (mm pairs)))) 1 = 0 ->
          entry (Fin 1) (values tout) 0 j = NaN)
    /\ index tf = labels
    /\ matrix_of (shape1 data) 5 finite_or_nan (values tf)
    /\ (forall j, (j < shape1 data)%nat ->
          (exists q, entry (Fin 1) (values tf) j 3 = Fin q
                     /\ Fin q = row_mean (map nan_to_zero
                                            (nth j (values ti) [])))
          /\ (exists q, entry (Fin 1) (values tf) j 4 = Fin q
                        /\ Fin q = row_mean (map nan_to_zero
                                               (nth j (values to) [])))).
Proof.
  intros Hp Hl.
  destruct (@inbound_eq F data Hp cols) as (ti & Hti & Hvi).
  destruct (@outbound_eq F data Hp cols) as (to & Hto & Hvo).
  destruct (@influx_eq F data Hp cols) as (tin & Htin & Hvin).
  destruct (@outflux_eq F data Hp cols) as (tout & Htout & Hvout).
  destruct (@flux_complete F data labels Hp Hl)
    as (tf & Htf & Hix & Hshape & Hmeans).
  cbv zeta in Hvi, Hvo, Hvin, Hvout, Hmeans.
  eexists. exists ti, to, tin, tout, tf.
  split; [apply (@md_pairs_eq data None Hp I)|].
  repeat (split; [assumption|]).
  unfold table_add.
  cbn [mr mm rr rm values _pattern_output pair_matrix rows].
  rewrite !map2_tabulate, !sum_axis1_tabulate, Hvi, Hvo, Hvin, Hvout.
  repeat split.
  - intros j k Hj Hk. rewrite !entry_tabulate by assumption.
    apply true_divide_zero_denominator.
    pose proof (pair_count_nonneg missing observed data j k).
    pose proof (pair_count_nonneg missing missing data j k). lia.
  - intros j k Hj Hk. rewrite !entry_tabulate by assumption.
    apply true_divide_zero_denominator.
    pose proof (pair_count_nonneg observed missing data j k).
    pose proof (pair_count_nonneg observed observed data j k). lia.
  - intros j Hj. unfold entry. cbn [nth].
    rewrite (nth_map_seq _ 1 0 Hj), (nth_map_seq _ (Fin 1) 0 Hj).
    apply true_divide_zero_denominator.
    apply total_ratio_bounds; intros k; apply pair_count_nonneg.
  - intros j Hj. unfold entry. cbn [nth].
    rewrite (nth_map_seq _ 1 0 Hj), (nth_map_seq _ (Fin 1) 0 Hj).
    apply true_divide_zero_denominator.
    apply total_ratio_bounds; intros k; apply pair_count_nonneg.
  - exact Hix.
  - apply Hshape.
  - apply Hshape.
  - rewrite nth_tabulate by assumption. apply (Hmeans j H).
  - rewrite nth_tabulate by assumption. apply (Hmeans j H).
Qed.

Lemma zero_denominator_is_nan_witness :
  exists pairs ti to tin tout tf,
    md_pairs scenario None = Return pairs
    /\ @inbound exact scenario (Some ABC) = Return ti
    /\ @outbound exact scenario (Some ABC) = Return to
    /\ @influx exact scenario (Some ABC) = Return tin
    /\ @outflux exact scenario (Some ABC) = Return tout
    /\ @flux exact scenario ABC = Return tf
    /\ (forall j k, (j < 3)%nat -> (k < 3)%nat ->
          entry 1 (values (@table_add (mr pairs) (mm pairs))) j k = 0 ->
          entry (Fin 1) (values ti) j k = NaN)
    /\ (forall j k, (j < 3)%nat -> (k < 3)%nat ->
          entry 1 (values (@table_add (rm pairs) (rr pairs))) j k = 0 ->
          entry (Fin 1) (values to) j k = NaN)
    /\ (forall j, (j < 3)%nat ->
          nth j (sum_axis1 (values (@table_add (mr pairs) (rr pairs)))) 1 = 0 ->
          entry (Fin 1) (values tin) 0 j = NaN)
    /\ (forall j, (j < 3)%nat ->
          nth j (sum_axis1 (values (@table_add (rm pairs) (mm pairs)))) 1 = 0 ->
          entry (Fin 1) (values tout) 0 j = NaN)
    /\ index tf = ABC
    /\ matrix_of 3 5 finite_or_nan (values tf)
    /\ (forall j, (j < 3)%nat ->
          (exists q, entry (Fin 1) (values tf) j 3 = Fin q
                     /\ Fin q = @row_mean exact
                                  (map (@nan_to_zero) (nth j (values ti) [])))
          /\ (exists q, entry (Fin 1) (values tf) j 4 = Fin q
                        /\ Fin q = @row_mean exact
                                     (map (@nan_to_zero)
                                          (nth j (values to) [])))).
Proof.
  apply (@zero_denominator_is_nan exact scenario (Some ABC) ABC).
  - vm_compute; lia.
  - reflexivity.
Defined.

(** ** Labels and column selection *)

Lemma label_eqb_spec (a b : label) : reflect (a = b) (label_eqb a b).
Proof.
  destruct a as [s|i], b as [t|j]; simpl; try (constructor; discriminate).
  - destruct (String.eqb_spec s t); constructor; congruence.
  - destruct (Nat.eqb_spec i j); constructor; congruence.
Qed.

Lemma locs_from_notin (i : nat) (l : label) (header : list label) :
  ~ In l header -> locs_from i l header = [].
Proof.
  revert i. induction header as [|h t IH]; intros i Hn; simpl; [reflexivity|].
  destruct (label_eqb_spec l h) as [->|_].
  - exfalso. apply Hn. now left.
  - apply IH. intros Hin. apply Hn. now right.
Qed.

Lemma locs_from_single (i : nat) (l : label) (pre post : list label) :
  NoDup (pre ++ l :: post) ->
  locs_from i l (pre ++ l :: post) = [(i + List.length pre)%nat].
Proof.
  revert i. induction pre as [|h pre IH]; intros i Hnd; simpl.
  - destruct (label_eqb_spec l l) as [_|Hne]; [|congruence].
    inversion Hnd as [|? ? Hn _]; subst.
    rewrite locs_from_notin by assumption. f_equal. lia.
  - inversion Hnd as [|? ? Hn Hnd']; subst.
    destruct (label_eqb_spec l h) as [->|_].
    + exfalso. apply Hn. apply in_or_app. right. now left.
    + rewrite IH by assumption. f_equal. lia.
Qed.

Lemma has_label_In (header : list label) (l : label) :
  has_label header l = true <-> In l header.
Proof.
  unfold has_label, locs. generalize 0%nat.
  induction header as [|h t IH]; intros i; simpl.
  - split; [discriminate|tauto].
  - destruct (label_eqb_spec l h) as [->|Hne].
    + split; [now left|reflexivity].
    + rewrite IH. split; [now right|]. intros [Heq|Hin]; congruence.
Qed.

Lemma distinct_NoDup (ls : list label) : distinct ls = true <-> NoDup ls.
Proof.
  induction ls as [|l t IH]; simpl.
  - split; [constructor|reflexivity].
  - rewrite andb_true_iff, negb_true_iff, IH. split.
    + intros [Hn Hnd]. constructor; [|assumption].
      intros Hin. apply has_label_In in Hin. congruence.
    + intros Hnd. inversion Hnd as [|? ? Hn Hnd']; subst.
      split; [|assumption].
      destruct (has_label t l) eqn:E; [|reflexivity].
      apply has_label_In in E. contradiction.
Qed.

Lemma forallb_has_label (header labels : list label) :
  incl labels header -> forallb (has_label header) labels = true.
Proof.
  intros H. apply forallb_forall. intros l Hl. apply has_label_In. now apply H.
Qed.

(** The columns named by a block of a duplicate-free header are that block. *)
Lemma flat_map_locs (pre mid post : list label) :
  NoDup (pre ++ mid ++ post) ->
  flat_map (locs (pre ++ mid ++ post)) mid
  = seq (List.length pre) (List.length mid).
Proof.
  revert pre. induction mid as [|l mid IH]; intros pre Hnd; [reflexivity|].
  cbn [flat_map List.length seq]. unfold locs at 1.
  change (pre ++ (l :: mid) ++ post) with (pre ++ l :: (mid ++ post)).
  rewrite locs_from_single by assumption. cbn [Nat.add app]. f_equal.
  replace (pre ++ l :: mid ++ post) with ((pre ++ [l]) ++ mid ++ post)
    by (now rewrite <- app_assoc).
  rewrite IH.
  - rewrite length_app. simpl. f_equal. lia.
  - now rewrite <- app_assoc.
Qed.

Lemma map_nth_block {A} (d : A) (pre mid post : list A) :
  map (fun i => nth i (pre ++ mid ++ post) d)
      (seq (List.length pre) (List.length mid)) = mid.
Proof.
  revert pre. induction mid as [|x mid IH]; intros pre; [reflexivity|].
  cbn [List.length seq map]. f_equal.
  - rewrite app_nth2 by lia. now rewrite Nat.sub_diag.
  - replace (pre ++ (x :: mid) ++ post) with ((pre ++ [x]) ++ mid ++ post)
      by (now rewrite <- app_assoc).
    replace (S (List.length pre)) with (List.length (pre ++ [x]))
      by (rewrite length_app; simpl; lia).
    apply IH.
Qed.

Lemma fold_set_nth {A} (pre mid new post : list A) :
  List.length new = List.length mid ->
  fold_left (fun row ix => set_nth (fst ix) (snd ix) row)
            (combine (seq (List.length pre) (List.length mid)) new)
            (pre ++ mid ++ post)
  = pre ++ new ++ post.
Proof.
  revert pre new. induction mid as [|x mid IH]; intros pre new Hlen.
  - destruct new; [reflexivity|discriminate].
  - destruct new as [|y new]; [discriminate|].
    cbn [List.length seq combine fold_left fst snd].
    assert (set_nth (List.length pre) y (pre ++ (x :: mid) ++ post)
            = (pre ++ [y]) ++ mid ++ post) as ->.
    { clear. induction pre as [|h pre IHp]; simpl in *; [reflexivity|].
      now rewrite IHp. }
    replace (S (List.length pre)) with (List.length (pre ++ [y]))
      by (rewrite length_app; simpl; lia).
    rewrite IH by (simpl in Hlen; lia).
    now rewrite <- app_assoc.
Qed.

Lemma combine_map {X A B} (f : X -> A) (g : X -> B) (l : list X) :
  combine (map f l) (map g l) = map (fun x => (f x, g x)) l.
Proof. induction l as [|x l IH]; simpl; [reflexivity|]. now rewrite IH. Qed.

(** ** Frames whose rows are made of three blocks *)

Section Blocks.
Context {A X : Type}.
Variable d : A.
Variables pre mid post : list label.
Variable ix : list label.
Variable l : list X.
Variables P M Q : X -> list A.
Hypothesis Hnd : NoDup (pre ++ mid ++ post).
Hypothesis HP : forall x, In x l -> List.length (P x) = List.length pre.
Hypothesis HM : forall x, In x l -> List.length (M x) = List.length mid.

Let df : Table A :=
  {| index := ix; columns := pre ++ mid ++ post;
     values := map (fun x => P x ++ M x ++ Q x) l |}.

Lemma mid_labels_known : forallb (has_label (pre ++ mid ++ post)) mid = true.
Proof.
  apply forallb_has_label. intros x Hx.
  apply in_or_app. right. apply in_or_app. now left.
Qed.

Lemma getitem_block :
  getitem d df mid
  = Return {| index := ix; columns := mid; values := map M l |}.
Proof.
  unfold getitem, df. cbn [columns values index].
  rewrite mid_labels_known, flat_map_locs by assumption.
  rewrite map_nth_block, map_map. f_equal. f_equal.
  apply map_ext_in. intros x Hx.
  rewrite <- (HP x Hx), <- (HM x Hx). apply map_nth_block.
Qed.

Lemma setitems_block (cols' : list label) (N : X -> list A) :
  List.length cols' = List.length mid ->
  (forall x, In x l -> List.length (N x) = List.length mid) ->
  setitems df mid {| index := ix; columns := cols'; values := map N l |}
  = Return {| index := ix; columns := pre ++ mid ++ post;
              values := map (fun x => P x ++ N x ++ Q x) l |}.
Proof.
  intros Hc HN. unfold setitems, df. cbn [columns values index].
  rewrite mid_labels_known, flat_map_locs by assumption.
  rewrite length_seq, Hc, Nat.eqb_refl, !length_map, Nat.eqb_refl.
  cbn [negb orb]. f_equal. f_equal.
  rewrite combine_map, map_map. apply map_ext_in. intros x Hx.
  cbn [fst snd]. rewrite <- (HP x Hx), <- (HM x Hx).
  apply fold_set_nth. now rewrite (HN x Hx), (HM x Hx).
Qed.
End Blocks.

Lemma setitem_append {A} (ix header : list label) (vals : list (list A))
  (l : label) (col : list A) :
  ~ In l header -> List.length col = List.length vals ->
  setitem {| index := ix; columns := header; values := vals |} l col
  = Return {| index := ix; columns := header ++ [l];
              values := map (fun rc => fst rc ++ [snd rc]) (combine vals col) |}.
Proof.
  intros Hn Hlen. unfold setitem. cbn [columns values index].
  rewrite Hlen, Nat.eqb_refl. cbn [negb].
  unfold locs. now rewrite locs_from_notin.
Qed.

Lemma locs_length_one (header : list label) (l : label) :
  NoDup header -> In l header -> List.length (locs header l) = 1%nat.
Proof.
  intros Hnd Hin. apply in_split in Hin. destruct Hin as (a & b & ->).
  unfold locs. now rewrite locs_from_single.
Qed.

(** ** Sorting permutations *)

Section ArgsortFacts.
Context {A : Type} (leb : A -> A -> bool).

Lemma insert_by_perm (x : nat * A) (l : list (nat * A)) :
  Permutation (insert_by leb x l) (x :: l).
Proof.
  induction l as [|y l IH]; simpl; [reflexivity|].
  destruct (leb (snd x) (snd y)); [reflexivity|].
  rewrite IH. apply perm_swap.
Qed.

Lemma insertion_sort_perm (l : list (nat * A)) :
  Permutation (fold_right (insert_by leb) [] l) l.
Proof.
  induction l as [|x l IH]; simpl; [reflexivity|].
  rewrite insert_by_perm. now constructor.
Qed.

Lemma map_fst_combine {B C} (u : list B) (v : list C) :
  List.length u = List.length v -> map fst (combine u v) = u.
Proof.
  revert v. induction u as [|x u IH]; intros [|y v] H; simpl in *;
    try reflexivity; try discriminate.
  f_equal. apply IH. lia.
Qed.

Lemma argsort_perm (xs : list A) :
  Permutation (argsort leb xs) (seq 0 (List.length xs)).
Proof.
  unfold argsort. rewrite insertion_sort_perm.
  rewrite map_fst_combine; [reflexivity|]. apply length_seq.
Qed.

Lemma argsort_length (xs : list A) :
  List.length (argsort leb xs) = List.length xs.
Proof.
  rewrite (Permutation_length (argsort_perm xs)). apply length_seq.
Qed.

Lemma argsort_in_range (xs : list A) (i : nat) :
  In i (argsort leb xs) -> (i < List.length xs)%nat.
Proof.
  intros H. apply (Permutation_in _ (argsort_perm xs)) in H.
  apply in_seq in H. lia.
Qed.
End ArgsortFacts.

(** ** Pattern keys and groups *)

Lemma shape1_reordered (data : dataset) :
  shape1 (reordered data) = shape1 data.
Proof.
  unfold reordered, take_columns. cbn [shape1].
  rewrite argsort_length. unfold sum_axis0.
  now rewrite length_map, length_seq.
Qed.

Lemma shape0_reordered (data : dataset) :
  shape0 (reordered data) = shape0 data.
Proof.
  unfold shape0, reordered, take_columns, _is_null, amap. cbn [rows].
  now rewrite !length_map.
Qed.

Lemma reordered_row_length (data : dataset) (row : list bool) :
  In row (rows (reordered data)) -> List.length row = shape1 data.
Proof.
  intros Hin. rewrite <- shape1_reordered.
  unfold reordered, take_columns in *. cbn [rows shape1] in *.
  apply in_map_iff in Hin. destruct Hin as (r0 & <- & _).
  apply length_map.
Qed.

Lemma pattern_keys_length (data : dataset) :
  List.length (pattern_keys data) = shape0 data.
Proof.
  unfold pattern_keys, amap, take_rows. cbn [rows].
  rewrite !length_map, argsort_length, !length_map.
  apply shape0_reordered.
Qed.

Lemma times1_bit (b : bool) : times1 b = 0 \/ times1 b = 1.
Proof. destruct b; simpl; tauto. Qed.

Lemma pattern_key_shape (data : dataset) (k : list Z) :
  In k (pattern_keys data) ->
  List.length k = shape1 data /\ Forall (fun x => x = 0 \/ x = 1) k.
Proof.
  unfold pattern_keys, amap, take_rows. cbn [rows]. intros Hin.
  apply in_map_iff in Hin. destruct Hin as (row & <- & Hrow).
  apply in_map_iff in Hrow. destruct Hrow as (i & <- & Hi).
  apply argsort_in_range in Hi. rewrite !length_map in Hi.
  split.
  - rewrite length_map. apply reordered_row_length. now apply nth_In.
  - apply Forall_forall. intros x Hx. apply in_map_iff in Hx.
    destruct Hx as (b & <- & _). apply times1_bit.
Qed.

Lemma tally_total (k : list Z) (groups : list (list Z * Z)) :
  fold_right Z.add 0 (map snd (tally k groups))
  = fold_right Z.add 0 (map snd groups) + 1.
Proof.
  induction groups as [|[k' c] rest IH]; [reflexivity|].
  cbn [tally]. destruct (key_compare k k');
    cbn [map snd fold_right] in *; rewrite ?IH; lia.
Qed.

Lemma tally_keys (k : list Z) (groups : list (list Z * Z)) (g : list Z * Z) :
  In g (tally k groups) -> fst g = k \/ In (fst g) (map fst groups).
Proof.
  induction groups as [|[k' c] rest IH]; simpl.
  - intros [<-|[]]. now left.
  - destruct (key_compare k k'); simpl.
    + intros [<-|Hin]; [right; now left|].
      right. right. now apply in_map.
    + intros [<-|[<-|Hin]]; [now left|right; now left|].
      right. right. now apply in_map.
    + intros [<-|Hin]; [right; now left|].
      destruct (IH Hin) as [->|H]; [now left|right; now right].
Qed.

Lemma fold_tally_total (keys : list (list Z)) (groups : list (list Z * Z)) :
  fold_right Z.add 0
    (map snd (fold_left (fun acc k => tally k acc) keys groups))
  = fold_right Z.add 0 (map snd groups) + Z.of_nat (List.length keys).
Proof.
  revert groups. induction keys as [|k keys IH]; intros groups.
  - simpl. lia.
  - cbn [fold_left List.length]. rewrite IH, tally_total. lia.
Qed.

Lemma fold_tally_keys (keys : list (list Z)) (groups : list (list Z * Z))
  (g : list Z * Z) :
  In g (fold_left (fun acc k => tally k acc) keys groups) ->
  In (fst g) keys \/ In (fst g) (map fst groups).
Proof.
  revert groups. induction keys as [|k keys IH]; intros groups; simpl.
  - intros H. right. now apply in_map.
  - intros H. destruct (IH _ H) as [Hk|Hg]; [left; now right|].
    apply in_map_iff in Hg. destruct Hg as (g0 & Heq & Hg0).
    destruct (tally_keys _ _ _ Hg0) as [<-|Hin].
    + left. left. now symmetry.
    + right. now rewrite <- Heq.
Qed.

Lemma pattern_groups_total (data : dataset) :
  fold_right Z.add 0 (map snd (pattern_groups data)) = Z.of_nat (shape0 data).
Proof.
  unfold pattern_groups. rewrite fold_tally_total, pattern_keys_length.
  simpl. lia.
Qed.

Lemma pattern_group_shape (data : dataset) (g : list Z * Z) :
  In g (pattern_groups data) ->
  List.length (fst g) = shape1 data
  /\ Forall (fun x => x = 0 \/ x = 1) (fst g).
Proof.
  intros Hin. apply fold_tally_keys in Hin.
  destruct Hin as [Hk|[]]. now apply pattern_key_shape.
Qed.

(** ** [md_pattern], row by row *)

Lemma pick_reorder {A} (d : A) (K : list A) (c s : A) :
  map (fun i => nth i (K ++ [c; s]) d)
      (List.length K :: seq 0 (List.length K) ++ [S (List.length K)])
  = c :: K ++ [s].
Proof.
  cbn [map]. rewrite map_app. cbn [map]. f_equal; [|f_equal].
  - rewrite app_nth2 by lia. now rewrite Nat.sub_diag.
  - apply (map_nth_block d [] K [c; s]).
  - rewrite app_nth2 by lia.
    now replace (S (List.length K) - List.length K)%nat with 1%nat by lia.
Qed.

Lemma getitem_all {A} (d : A) (ix header : list label) (vals : list (list A)) :
  NoDup header ->
  (forall row, In row vals -> List.length row = List.length header) ->
  getitem d {| index := ix; columns := header; values := vals |} header
  = Return {| index := ix; columns := header; values := vals |}.
Proof.
  intros Hnd Hlen.
  pose proof (@getitem_block A (list A) d [] header [] ix vals
                (fun _ => []) (fun x => x) (fun _ => [])) as H.
  cbn [app List.length] in H. rewrite app_nil_r in H.
  rewrite (map_ext (fun x : list A => x ++ []) (fun x => x)) in H
    by (intros; apply app_nil_r).
  rewrite !map_id in H. apply H; auto.
Qed.

Lemma getitem_reorder {X A} (d : A) (cols : list label) (c s : label)
  (ix : list label) (l : list X) (K : X -> list A) (cf sf : X -> A) :
  NoDup (cols ++ [c; s]) ->
  (forall x, In x l -> List.length (K x) = List.length cols) ->
  getitem d {| index := ix; columns := cols ++ [c; s];
               values := map (fun x => K x ++ [cf x; sf x]) l |}
          (c :: cols ++ [s])
  = Return {| index := ix; columns := c :: cols ++ [s];
              values := map (fun x => cf x :: K x ++ [sf x]) l |}.
Proof.
  intros Hnd HK. unfold getitem. cbn [columns values index].
  rewrite forallb_has_label.
  2:{ intros x [<-|Hx].
      - apply in_or_app. right. now left.
      - apply in_app_or in Hx. destruct Hx as [Hx|[<-|[]]];
          apply in_or_app; [now left|right; right; now left]. }
  cbn [flat_map]. rewrite flat_map_app. cbn [flat_map].
  pose proof (@flat_map_locs [] cols [c; s] Hnd) as Hmid.
  cbn [app List.length] in Hmid. rewrite Hmid.
  assert (locs (cols ++ [c; s]) c = [List.length cols]) as ->
    by (unfold locs; now rewrite (@locs_from_single 0 c cols [s] Hnd)).
  assert (locs (cols ++ [c; s]) s = [S (List.length cols)]) as ->.
  { unfold locs.
    replace (cols ++ [c; s]) with ((cols ++ [c]) ++ [s]) in *
      by (now rewrite <- app_assoc).
    rewrite (@locs_from_single 0 s (cols ++ [c]) [] Hnd).
    rewrite length_app. cbn [List.length Nat.add]. f_equal. lia. }
  cbn [app].
  rewrite (pick_reorder (Pos 0) cols c s).
  f_equal. f_equal. rewrite map_map. apply map_ext_in. intros x Hx.
  rewrite <- (HK x Hx). apply pick_reorder.
Qed.

Lemma apply_along_axis1_rows {A B} (f : list A -> B) (arr : list (list A)) :
  (1 <= List.length arr)%nat -> apply_along_axis1 f arr = Return (map f arr).
Proof. destruct arr; simpl; [lia|reflexivity]. Qed.

Section MdPattern.
Variable data : dataset.
Variable cols : list label.
Hypothesis Hp : (2 <= shape1 data)%nat.
Hypothesis Hcols : List.length cols = shape1 data.
Hypothesis Hclean : clean_labels cols = true.

Let p := shape1 data.
Let groups := pattern_groups data.
Let ix := RangeIndex (List.length groups).
Let count := Name "count".
Let nmis := Name "nmis".
Let flip := fun x : Z => times1 (logical_not x).

Lemma clean_NoDup : NoDup (Pos 0 :: count :: nmis :: cols).
Proof. now apply distinct_NoDup. Qed.

Lemma cols_NoDup : NoDup cols.
Proof.
  pose proof clean_NoDup as H.
  inversion H as [|? ? _ H1]; subst.
  inversion H1 as [|? ? _ H2]; subst.
  now inversion H2.
Qed.

Lemma cols_zero_NoDup : NoDup (cols ++ [Pos 0]).
Proof.
  pose proof clean_NoDup as H.
  apply (Permutation_NoDup (Permutation_cons_append cols (Pos 0))).
  inversion H as [|? ? Hn _]; subst. constructor; [|apply cols_NoDup].
  intros Hin. apply Hn. right. right. exact Hin.
Qed.

Lemma cols_count_nmis_NoDup : NoDup (cols ++ [count; nmis]).
Proof.
  pose proof clean_NoDup as H. inversion H as [|? ? _ H1]; subst.
  apply (Permutation_NoDup (Permutation_app_comm [count; nmis] cols)).
  exact H1.
Qed.

Lemma cols_count_NoDup : NoDup (cols ++ [count]).
Proof.
  pose proof cols_count_nmis_NoDup as H.
  replace (cols ++ [count; nmis]) with ((cols ++ [count]) ++ [nmis]) in H
    by (now rewrite <- app_assoc).
  now apply NoDup_app_remove_r in H.
Qed.

Lemma nmis_fresh : ~ In nmis (cols ++ [count]).
Proof.
  pose proof cols_count_nmis_NoDup as H.
  replace (cols ++ [count; nmis]) with ((cols ++ [count]) ++ [nmis]) in H
    by (now rewrite <- app_assoc).
  apply NoDup_remove_2 in H. now rewrite app_nil_r in H.
Qed.

Lemma group_key_length (g : list Z * Z) :
  In g groups -> List.length (fst g) = List.length cols.
Proof. intros H. rewrite Hcols. now apply pattern_group_shape. Qed.

Lemma groupby_stage (ix0 : list label) :
  groupby_size
    {| index := ix0; columns := cols; values := pattern_keys data |} cols
  = Return {| index := ix; columns := cols ++ [Pos 0];
              values := map (fun g => fst g ++ [snd g]) groups |}.
Proof.
  unfold groupby_size. cbn [columns].
  rewrite (forallb_has_label (incl_refl cols)). cbn [negb].
  assert (forallb (fun l => (List.length (locs cols l) =? 1)%nat) cols
          = true) as ->.
  { apply forallb_forall. intros l Hl.
    now rewrite (@locs_length_one cols l cols_NoDup Hl). }
  rewrite (proj2 (distinct_NoDup _) cols_zero_NoDup). cbn [negb orb].
  rewrite getitem_all.
  - reflexivity.
  - apply cols_NoDup.
  - intros row Hrow. rewrite Hcols. now apply pattern_key_shape.
Qed.

Lemma select_stage (Q : list Z * Z -> list Z) (post : list label)
  (M : list Z * Z -> list Z) :
  NoDup (cols ++ post) ->
  (forall g, In g groups -> List.length (M g) = List.length cols) ->
  getitem 0 {| index := ix; columns := cols ++ post;
               values := map (fun g => M g ++ Q g) groups |} cols
  = Return {| index := ix; columns := cols; values := map M groups |}.
Proof.
  intros Hnd HM.
  apply (@getitem_block Z _ 0 [] cols post ix groups (fun _ => []) M Q);
    auto.
Qed.

Lemma md_pattern_body_eq :
  (1 <= shape0 data)%nat ->
  md_pattern_body data (Some cols)
  = Return {| index := ix; columns := count :: cols ++ [nmis];
              values := map pattern_row groups |}.
Proof.
  intros Hn. unfold md_pattern_body. fold (reordered data).
  rewrite apply_along_axis1_rows
    by (unfold amap; cbn [rows]; rewrite length_map;
        fold (shape0 (reordered data)); rewrite shape0_reordered; exact Hn).
  cbn [bind]. unfold _pattern_output. fold (pattern_keys data).
  rewrite groupby_stage. cbn [bind].
  unfold set_columns. cbn [columns index values].
  rewrite !length_app, Nat.eqb_refl. cbn [bind].
  rewrite (@select_stage (fun g => [snd g]) [Name "count"] fst
             cols_count_NoDup group_key_length).
  cbn [bind values].
  rewrite setitem_append
    by (try apply nmis_fresh; unfold sum_axis1; now rewrite !length_map).
  cbn [bind]. unfold sum_axis1.
  rewrite map_map, combine_map, map_map. cbn [fst snd].
  rewrite <- app_assoc. cbn [app].
  rewrite (map_ext (fun g : list Z * Z =>
                      (fst g ++ [snd g]) ++ [fold_right Z.add 0 (fst g)])
                   (fun g => fst g ++ [snd g; fold_right Z.add 0 (fst g)]))
    by (intros; now rewrite <- app_assoc).
  rewrite (@select_stage (fun g => [snd g; fold_right Z.add 0 (fst g)])
             [Name "count"; Name "nmis"] fst
             cols_count_nmis_NoDup group_key_length).
  cbn [bind values index columns]. rewrite map_map.
  pose proof (@setitems_block Z _ [] cols [Name "count"; Name "nmis"] ix
                groups (fun _ => []) fst
                (fun g => [snd g; fold_right Z.add 0 (fst g)])
                cols_count_nmis_NoDup (fun _ _ => eq_refl) group_key_length
                cols (fun g => map flip (fst g)) eq_refl) as Hset.
  cbn [app] in Hset. unfold flip in Hset.
  rewrite Hset
    by (intros g Hg; rewrite length_map; now apply group_key_length).
  clear Hset. cbn [bind app].
  rewrite (@getitem_reorder _ Z 0 cols (Name "count") (Name "nmis") ix groups
             (fun g => map (fun x0 : Z => times1 (logical_not x0)) (fst g))
             snd (fun g => fold_right Z.add 0 (fst g))
             cols_count_nmis_NoDup)
    by (intros g Hg; rewrite length_map; now apply group_key_length).
  reflexivity.
Qed.
End MdPattern.

Lemma md_pattern_body_no_rows (data : dataset) (cols : option (list label)) :
  shape0 data = 0%nat -> md_pattern_body data cols = Raise ValueError.
Proof.
  unfold shape0. intros H. apply length_zero_iff_nil in H.
  unfold md_pattern_body, take_columns, _is_null, amap. cbn [rows].
  now rewrite H.
Qed.

Lemma key_total_ones (k : list Z) :
  Forall (fun x => x = 0 \/ x = 1) k ->
  fold_right Z.add 0 k
  = Z.of_nat (List.length k)
    - ones (map (fun x : Z => times1 (logical_not x)) k).
Proof.
  unfold ones. induction 1 as [|x k Hx _ IH]; [reflexivity|].
  cbn [fold_right List.length map]. rewrite IH.
  destruct Hx as [->| ->]; cbn [count_occ];
    match goal with |- context [Z.eq_dec ?a 1] =>
      destruct (Z.eq_dec a 1) as [E|E]; vm_compute in E;
      try discriminate; try congruence
    end; lia.
Qed.

(** ** C3 *)

Lemma groupby_size_returns (df : Table Z) (by_ : list label) (r : Table Z) :
  groupby_size df by_ = Return r -> distinct (by_ ++ [Pos 0]) = true.
Proof.
  unfold groupby_size.
  destruct (negb (forallb (has_label (columns df)) by_)); [discriminate|].
  destruct (distinct (by_ ++ [Pos 0])); [reflexivity|].
  rewrite orb_true_r. discriminate.
Qed.

Lemma md_pattern_body_returns (data : dataset) (cols : list label)
  (t : Table Z) :
  md_pattern_body data (Some cols) = Return t ->
  distinct (cols ++ [Pos 0]) = true.
Proof.
  unfold md_pattern_body.
  destruct (apply_along_axis1 _ _) as [e|pat]; [discriminate|].
  cbn [bind].
  destruct (groupby_size _ cols) as [e|r] eqn:G; [discriminate|].
  intros _. exact (groupby_size_returns _ _ G).
Qed.

Lemma not_has_label (header : list label) (l : label) :
  has_label header l = false <-> ~ In l header.
Proof.
  rewrite <- has_label_In. destruct (has_label header l); split;
    congruence.
Qed.

(** Labels with which [md_pattern] returns, and which avoid [count] and
    [nmis], are clean. *)
Lemma returned_labels_clean (cols : list label) :
  distinct (cols ++ [Pos 0]) = true -> reserved_free cols = true ->
  clean_labels cols = true.
Proof.
  intros Hd Hr. apply distinct_NoDup in Hd.
  unfold reserved_free in Hr. apply andb_true_iff in Hr.
  destruct Hr as (Hcount & Hnmis).
  apply negb_true_iff, not_has_label in Hcount.
  apply negb_true_iff, not_has_label in Hnmis.
  unfold clean_labels. apply distinct_NoDup.
  assert (NoDup cols) as Hnd by (now apply NoDup_app_remove_r in Hd).
  assert (~ In (Pos 0) cols) as Hzero.
  { apply NoDup_remove_2 in Hd. now rewrite app_nil_r in Hd. }
  constructor; [|constructor; [|constructor; [exact Hnmis|exact Hnd]]].
  - intros [E|[E|Hin]]; [discriminate E|discriminate E|contradiction].
  - intros [E|Hin]; [discriminate E|contradiction].
Qed.

(** C3 (as stated, refuted).  With one row [NaN, 1] and the labels nmis and
    B, [md_pattern] returns the single row 1, 0, 0, 0: the assignment of the
    nmis column overwrites the variable column of that name before the
    variable columns are flipped, so nmis is 0 where p minus the number of 1s
    is 2. *)
Lemma md_pattern_sentence_fails :
  md_pattern one_row_first_missing [Name "nmis"; Name "B"]
  = Return {| index := [Pos 0];
              columns := [Name "count"; Name "nmis"; Name "B"; Name "nmis"];
              values := [[1; 0; 0; 0]] |}
  /\ ~ md_pattern_sentence one_row_first_missing [Name "nmis"; Name "B"].
Proof.
  split; [reflexivity|]. intros H.
  destruct (H _ eq_refl) as (_ & Hrows). cbn [values] in Hrows.
  inversion Hrows as [|row rest Hex _].
  destruct Hex as (c & vars & nm & Hrow & Hlen & Hnm).
  destruct vars as [|a [|b [|? ?]]]; try discriminate Hlen.
  cbn [app] in Hrow. injection Hrow as Hc Ha Hb Hn.
  rewrite <- Ha, <- Hb, <- Hn in Hnm. vm_compute in Hnm. discriminate Hnm.
Qed.

(** C3 (amended).  For a dataset with p >= 2 columns and labels none of which
    is count or nmis: in every table that [md_pattern] returns the count
    column sums to the number of rows n and every row has nmis equal to p
    minus the number of 1s among its variable columns; a table is returned
    as soon as the dataset has a row and the labels are pairwise distinct
    and none is 0. *)
Theorem md_pattern_counts (data : dataset) (cols : list label) :
  (2 <= shape1 data)%nat -> List.length cols = shape1 data ->
  reserved_free cols = true ->
  ((1 <= shape0 data)%nat -> distinct (cols ++ [Pos 0]) = true ->
   exists t, md_pattern data cols = Return t)
  /\ forall t, md_pattern data cols = Return t ->
       columns t = Name "count" :: cols ++ [Name "nmis"]
       /\ fold_right Z.add 0 (map (fun row => nth 0 row 0) (values t))
          = Z.of_nat (shape0 data)
       /\ Forall (fun row =>
                    exists c vars nm,
                      row = c :: vars ++ [nm]
                      /\ List.length vars = shape1 data
                      /\ nm = Z.of_nat (shape1 data) - ones vars)
                 (values t).
Proof.
  intros Hp Hc Hfree.
  assert (md_pattern data cols = md_pattern_body data (Some cols)) as Hbody.
  { unfold md_pattern, check_dimensions.
    destruct (Nat.ltb_spec (shape1 data) 2); [lia|].
    now rewrite Hc, Nat.eqb_refl. }
  rewrite Hbody. split.
  - intros Hn Hd. eexists. apply md_pattern_body_eq; try assumption.
    now apply returned_labels_clean.
  - intros t Ht.
    pose proof (returned_labels_clean _
                  (md_pattern_body_returns _ _ Ht) Hfree) as Hclean.
    destruct (Nat.eq_dec (shape0 data) 0) as [H0|H0].
    + rewrite md_pattern_body_no_rows in Ht by assumption. discriminate.
    + rewrite (@md_pattern_body_eq data cols Hc Hclean ltac:(lia)) in Ht.
      injection Ht as <-. cbn [columns values].
      split; [reflexivity|]. split.
      * rewrite map_map. cbn [pattern_row nth].
        apply pattern_groups_total.
      * apply Forall_forall. intros row Hrow.
        apply in_map_iff in Hrow. destruct Hrow as (g & <- & Hg).
        destruct (pattern_group_shape _ _ Hg) as (Hlen & Hbits).
        unfold pattern_row. do 3 eexists.
        split; [reflexivity|]. split.
        -- now rewrite length_map.
        -- rewrite key_total_ones by assumption. now rewrite Hlen.
Qed.

Lemma md_pattern_counts_witness :
  ((1 <= 4)%nat -> distinct (ABC ++ [Pos 0]) = true ->
   exists t, md_pattern scenario ABC = Return t)
  /\ forall t, md_pattern scenario ABC = Return t ->
       columns t = Name "count" :: ABC ++ [Name "nmis"]
       /\ fold_right Z.add 0 (map (fun row => nth 0 row 0) (values t)) = 4
       /\ Forall (fun row =>
                    exists c vars nm,
                      row = c :: vars ++ [nm]
                      /\ List.length vars = 3%nat
                      /\ nm = 3 - ones vars)
                 (values t).
Proof.
  apply (@md_pattern_counts scenario ABC).
  - vm_compute; lia.
  - reflexivity.
  - reflexivity.
Defined.

(** ** C4 *)

(** C4 (defect of the code).  On the dataset whose variable A is missing in
    its first row and whose variable B is never missing, [md_pattern] puts
    the column of B first (it has fewer missing cells) but labels it A: the
    column labelled A shows 1 in both patterns and the column labelled B
    shows the 0 that belongs to A. *)
Theorem md_pattern_mislabels_columns :
  md_pattern a_missing_once [Name "A"; Name "B"]
  = Return {| index := [Pos 0; Pos 1];
              columns := [Name "count"; Name "A"; Name "B"; Name "nmis"];
              values := [[1; 1; 1; 0]; [1; 1; 0; 1]] |}
  /\ count_rows (missing 0) a_missing_once = 1
  /\ count_rows (missing 1) a_missing_once = 0
  /\ argsort Z.leb (sum_axis0 (_is_null a_missing_once)) = [1; 0]%nat.
Proof. repeat split. Qed.


(** * Further properties of the code *)

(** ** [md_pairs]: cross-products are counts *)

Lemma count_rows_filter (P : list cell -> bool) (data : dataset) :
  count_rows P data = Z.of_nat (List.length (filter P (rows data))).
Proof.
  unfold count_rows. induction (rows data) as [|row l IH]; [reflexivity|].
  cbn [map fold_right filter]. rewrite IH.
  destruct (P row); cbn [times1 List.length]; lia.
Qed.

(** X1. Each entry of the four matrices of [md_pairs] is the number of rows
    of the dataset with the joint status it is named after, and rr and mm are
    symmetric. *)
Theorem md_pairs_entries_are_counts (data : dataset)
  (cols : option (list label)) :
  (2 <= shape1 data)%nat -> labels_ok data cols ->
  exists pairs,
    md_pairs data cols = Return pairs
    /\ forall j k, (j < shape1 data)%nat -> (k < shape1 data)%nat ->
         let rows_with f g :=
           Z.of_nat (List.length
                       (filter (fun row => f j row && g k row) (rows data))) in
         entry 0 (values (rr pairs)) j k = rows_with observed observed
         /\ entry 0 (values (rm pairs)) j k = rows_with observed missing
         /\ entry 0 (values (mr pairs)) j k = rows_with missing observed
         /\ entry 0 (values (mm pairs)) j k = rows_with missing missing
         /\ entry 0 (values (rr pairs)) j k = entry 0 (values (rr pairs)) k j
         /\ entry 0 (values (mm pairs)) j k = entry 0 (values (mm pairs)) k j.
Proof.
  intros Hp Hc. eexists. split; [now apply md_pairs_eq|].
  intros j k Hj Hk rows_with. subst rows_with.
  cbn [rr rm mr mm values _pattern_output pair_matrix rows].
  rewrite !entry_tabulate by assumption.
  unfold pair_count. rewrite !count_rows_filter.
  repeat split; do 2 apply f_equal;
    apply filter_ext; intros row; apply andb_comm.
Qed.

Lemma md_pairs_entries_are_counts_witness :
  exists pairs,
    md_pairs scenario (Some ABC) = Return pairs
    /\ forall j k, (j < 3)%nat -> (k < 3)%nat ->
         let rows_with f g :=
           Z.of_nat (List.length
                       (filter (fun row => f j row && g k row)
                               (rows scenario))) in
         entry 0 (values (rr pairs)) j k = rows_with observed observed
         /\ entry 0 (values (rm pairs)) j k = rows_with observed missing
         /\ entry 0 (values (mr pairs)) j k = rows_with missing observed
         /\ entry 0 (values (mm pairs)) j k = rows_with missing missing
         /\ entry 0 (values (rr pairs)) j k = entry 0 (values (rr pairs)) k j
         /\ entry 0 (values (mm pairs)) j k = entry 0 (values (mm pairs)) k j.
Proof.
  apply (@md_pairs_entries_are_counts scenario (Some ABC)).
  - vm_compute; lia.
  - reflexivity.
Defined.

Lemma status_split (f : list cell -> bool) (row : list cell) (k : nat) :
  (k < List.length row)%nat ->
  times1 (f row && observed k row) + times1 (f row && missing k row)
  = times1 (f row).
Proof.
  intros Hk. unfold observed, missing.
  destruct (nth_error row k) as [[?|]|] eqn:E;
    [| |apply nth_error_None in E; lia]; destruct (f row); reflexivity.
Qed.

Lemma pair_count_marginal (f : nat -> list cell -> bool) (data : dataset)
  (j k : nat) :
  well_shaped data -> (k < shape1 data)%nat ->
  pair_count f observed data j k + pair_count f missing data j k
  = count_rows (f j) data.
Proof.
  intros Hw Hk. unfold pair_count, count_rows.
  rewrite <- fold_add_plus. apply fold_add_ext. intros row Hin.
  apply status_split. rewrite (row_length Hw _ Hin). exact Hk.
Qed.

Lemma pair_count_diag (f : nat -> list cell -> bool) (data : dataset)
  (j : nat) :
  pair_count f f data j j = count_rows (f j) data.
Proof.
  unfold pair_count, count_rows. apply fold_add_ext. intros row _.
  now rewrite andb_diag.
Qed.

(** X2. In each row j of the matrices of [md_pairs], rr + rm is the number of
    rows that observe variable j and mr + mm the number of rows that miss it,
    whatever the column k; these numbers are the diagonal entries rr[j,j] and
    mm[j,j], and they add up to the number of rows. *)
Theorem md_pairs_marginals (data : dataset) (cols : option (list label)) :
  well_shaped data -> (2 <= shape1 data)%nat -> labels_ok data cols ->
  exists pairs,
    md_pairs data cols = Return pairs
    /\ forall j k, (j < shape1 data)%nat -> (k < shape1 data)%nat ->
         entry 0 (values (rr pairs)) j k + entry 0 (values (rm pairs)) j k
         = count_rows (observed j) data
         /\ entry 0 (values (mr pairs)) j k + entry 0 (values (mm pairs)) j k
            = count_rows (missing j) data
         /\ entry 0 (values (rr pairs)) j j = count_rows (observed j) data
         /\ entry 0 (values (mm pairs)) j j = count_rows (missing j) data
         /\ count_rows (observed j) data + count_rows (missing j) data
            = Z.of_nat (shape0 data).
Proof.
  intros Hw Hp Hc. eexists. split; [now apply md_pairs_eq|].
  intros j k Hj Hk.
  cbn [rr rm mr mm values _pattern_output pair_matrix rows].
  rewrite !entry_tabulate by assumption.
  rewrite !pair_count_marginal, !pair_count_diag by assumption.
  repeat split.
  rewrite <- (pair_count_total Hw Hj Hj).
  rewrite pair_count_mr_diag, pair_count_rm_diag, !pair_count_diag. lia.
Qed.

Lemma md_pairs_marginals_witness :
  exists pairs,
    md_pairs scenario None = Return pairs
    /\ forall j k, (j < 3)%nat -> (k < 3)%nat ->
         entry 0 (values (rr pairs)) j k + entry 0 (values (rm pairs)) j k
         = count_rows (observed j) scenario
         /\ entry 0 (values (mr pairs)) j k + entry 0 (values (mm pairs)) j k
            = count_rows (missing j) scenario
         /\ entry 0 (values (rr pairs)) j j = count_rows (observed j) scenario
         /\ entry 0 (values (mm pairs)) j j = count_rows (missing j) scenario
         /\ count_rows (observed j) scenario + count_rows (missing j) scenario
            = 4.
Proof.
  apply (@md_pairs_marginals scenario None).
  - repeat constructor.
  - vm_compute; lia.
  - exact I.
Defined.

(** ** The coefficients of a completely observed or missing variable *)

Lemma row_total_ge_term (p j : nat) (E : nat -> Z) :
  (forall k, 0 <= E k) -> (j < p)%nat -> E j <= row_total p E.
Proof.
  intros H Hj. unfold row_total.
  assert (In j (seq 0 p)) as Hin by (apply in_seq; lia).
  induction (seq 0 p) as [|a l IH]; [contradiction|].
  cbn [map fold_right].
  assert (0 <= fold_right Z.add 0 (map E l))
    by (apply fold_add_nonneg; intros; apply H).
  destruct Hin as [->|Hin]; [lia|].
  specialize (IH Hin). specialize (H a). lia.
Qed.

Lemma row_total_zero_iff (p : nat) (E : nat -> Z) :
  (forall k, 0 <= E k) ->
  row_total p E = 0 <-> forall k, (k < p)%nat -> E k = 0.
Proof.
  intros H. split.
  - intros H0 k Hk. pose proof (@row_total_ge_term p k E H Hk).
    specialize (H k). lia.
  - intros H0. rewrite (@row_total_ext p E (fun _ => 0) H0).
    rewrite row_total_const. lia.
Qed.

Lemma true_divide_self {F : FloatFormat} (a : Z) :
  0 < a -> float_is (true_divide a a) 1.
Proof.
  intros Ha. unfold true_divide, of_int, fdiv.
  pose proof (rnd_int_pos (z := a) ltac:(lia)) as H1.
  rewrite Qzero_false by lra. simpl.
  assert (rnd (inject_Z a) / rnd (inject_Z a) == 1)%Q as Hq
    by (field; lra).
  rewrite (rnd_proper Hq). apply rnd_1.
Qed.

Lemma true_divide_nan_iff {F : FloatFormat} (a b : Z) :
  0 <= a <= b -> true_divide a b = NaN <-> b = 0.
Proof.
  intros Hab. split.
  - intros Hnan. destruct (Z.eq_dec b 0) as [|Hb]; [assumption|].
    destruct (@true_divide_unit F a b Hab ltac:(lia)) as (q & Hq & _).
    congruence.
  - now apply true_divide_zero_denominator.
Qed.

Lemma pair_count_first_all (f g : nat -> list cell -> bool) (data : dataset)
  (j k : nat) :
  forallb (f j) (rows data) = true ->
  pair_count f g data j k = count_rows (g k) data.
Proof.
  intros Hall. rewrite forallb_forall in Hall.
  unfold pair_count, count_rows. apply fold_add_ext.
  intros row Hin. now rewrite (Hall row Hin).
Qed.

Lemma pair_count_first_none (f g : nat -> list cell -> bool) (data : dataset)
  (j k : nat) :
  (forall row, In row (rows data) -> f j row = false) ->
  pair_count f g data j k = 0.
Proof.
  intros Hnone. unfold pair_count. apply count_rows_none.
  intros row Hin. now rewrite (Hnone row Hin).
Qed.

Lemma observed_not_missing (j : nat) (row : list cell) :
  observed j row = true -> missing j row = false.
Proof.
  unfold observed, missing. now destruct (nth_error row j) as [[?|]|].
Qed.

Lemma missing_not_observed (j : nat) (row : list cell) :
  missing j row = true -> observed j row = false.
Proof.
  unfold observed, missing. now destruct (nth_error row j) as [[?|]|].
Qed.

Lemma count_rows_nonneg (P : list cell -> bool) (data : dataset) :
  0 <= count_rows P data.
Proof. apply count_rows_bounds. Qed.

Section OneVariable.
Context {F : FloatFormat}.
Variable data : dataset.
Variable cols : option (list label).
Variable j : nat.
Hypothesis Hp : (2 <= shape1 data)%nat.
Hypothesis Hj : (j < shape1 data)%nat.

Lemma influx_entry :
  exists t, influx data cols = Return t
    /\ entry (Fin 2) (values t) 0 j
       = true_divide
           (row_total (shape1 data) (pair_count missing observed data j))
           (row_total (shape1 data)
              (fun k => pair_count missing observed data j k
                        + pair_count observed observed data j k)).
Proof.
  destruct (@influx_eq F data Hp cols) as (t & Ht & Hv). cbv zeta in Hv.
  exists t. split; [exact Ht|]. rewrite Hv. unfold entry. cbn [nth].
  now rewrite (nth_map_seq _ (Fin 2) 0 Hj).
Qed.

Lemma outflux_entry :
  exists t, outflux data cols = Return t
    /\ entry (Fin 2) (values t) 0 j
       = true_divide
           (row_total (shape1 data) (pair_count observed missing data j))
           (row_total (shape1 data)
              (fun k => pair_count observed missing data j k
                        + pair_count missing missing data j k)).
Proof.
  destruct (@outflux_eq F data Hp cols) as (t & Ht & Hv). cbv zeta in Hv.
  exists t. split; [exact Ht|]. rewrite Hv. unfold entry. cbn [nth].
  now rewrite (nth_map_seq _ (Fin 2) 0 Hj).
Qed.
End OneVariable.

(** X3. "Influx of a completely observed variable is equal to 0": in a
    dataset with at least one row, [influx] is 0 at every variable that no row
    misses. *)
Theorem influx_of_observed_variable {F : FloatFormat} (data : dataset)
  (cols : option (list label)) (j : nat) :
  (2 <= shape1 data)%nat -> (1 <= shape0 data)%nat ->
  (j < shape1 data)%nat -> completely_observed j data = true ->
  exists t, influx data cols = Return t
            /\ float_is (entry (Fin 2) (values t) 0 j) 0.
Proof.
  intros Hp Hn Hj Hall.
  destruct (@influx_entry F data cols j Hp Hj) as (t & Ht & He).
  exists t. split; [exact Ht|]. rewrite He. clear He.
  unfold completely_observed in Hall.
  assert (forall row, In row (rows data) -> missing j row = false) as Hno.
  { intros row Hin. apply observed_not_missing.
    rewrite forallb_forall in Hall. now apply Hall. }
  rewrite (@row_total_ext _ _ (fun _ => 0))
    by (intros k _; now apply pair_count_first_none).
  rewrite (@row_total_ext _ (fun k => _ + _)
             (pair_count observed observed data j))
    by (intros k _; now rewrite pair_count_first_none).
  rewrite row_total_const. apply true_divide_0_pos.
  pose proof (@row_total_ge_term (shape1 data) j
                (pair_count observed observed data j)
                (fun k => pair_count_nonneg _ _ _ _ _) Hj) as Hge.
  rewrite pair_count_diag, (@count_rows_all _ data) in Hge
    by (rewrite forallb_forall in Hall; exact Hall).
  lia.
Qed.

Lemma influx_of_observed_variable_witness :
  exists t, @influx exact scenario (Some ABC) = Return t
            /\ float_is (entry (Fin 2) (values t) 0 0) 0.
Proof.
  apply (@influx_of_observed_variable exact scenario (Some ABC) 0).
  - vm_compute; lia.
  - vm_compute; lia.
  - vm_compute; lia.
  - reflexivity.
Defined.

(** X4. "Influx for completely missing variables is equal to 1": [influx]
    is 1 at every variable that every row misses, provided some cell of the
    dataset is observed. *)
Theorem influx_of_missing_variable {F : FloatFormat} (data : dataset)
  (cols : option (list label)) (j k : nat) :
  well_shaped data -> (2 <= shape1 data)%nat ->
  (j < shape1 data)%nat -> (k < shape1 data)%nat ->
  completely_missing j data = true ->
  0 < count_rows (observed k) data ->
  exists t, influx data cols = Return t
            /\ float_is (entry (Fin 2) (values t) 0 j) 1.
Proof.
  intros Hw Hp Hj Hk Hall Hobs.
  destruct (@influx_entry F data cols j Hp Hj) as (t & Ht & He).
  exists t. split; [exact Ht|]. rewrite He. clear He.
  unfold completely_missing in Hall.
  assert (forall row, In row (rows data) -> observed j row = false) as Hno.
  { intros row Hin. apply missing_not_observed.
    rewrite forallb_forall in Hall. now apply Hall. }
  rewrite (@row_total_ext _ (fun k => _ + _)
             (pair_count missing observed data j))
    by (intros i _; rewrite (@pair_count_first_none observed); auto; lia).
  apply true_divide_self.
  pose proof (@row_total_ge_term (shape1 data) k
                (pair_count missing observed data j)
                (fun i => pair_count_nonneg _ _ _ _ _) Hk) as Hge.
  rewrite (@pair_count_first_all missing observed data j k Hall) in Hge.
  lia.
Qed.

Lemma influx_of_missing_variable_witness :
  exists t, @influx exact first_missing None = Return t
            /\ float_is (entry (Fin 2) (values t) 0 0) 1.
Proof.
  apply (@influx_of_missing_variable exact first_missing None 0 1).
  - repeat constructor.
  - vm_compute; lia.
  - vm_compute; lia.
  - vm_compute; lia.
  - reflexivity.
  - reflexivity.
Defined.

(** X5. "Outflux of a completely observed variable is equal to 1":
    [outflux] is 1 at every variable that no row misses, provided some cell
    of the dataset is missing. *)
Theorem outflux_of_observed_variable {F : FloatFormat} (data : dataset)
  (cols : option (list label)) (j k : nat) :
  well_shaped data -> (2 <= shape1 data)%nat ->
  (j < shape1 data)%nat -> (k < shape1 data)%nat ->
  completely_observed j data = true ->
  0 < count_rows (missing k) data ->
  exists t, outflux data cols = Return t
            /\ float_is (entry (Fin 2) (values t) 0 j) 1.
Proof.
  intros Hw Hp Hj Hk Hall Hmis.
  destruct (@outflux_entry F data cols j Hp Hj) as (t & Ht & He).
  exists t. split; [exact Ht|]. rewrite He. clear He.
  unfold completely_observed in Hall.
  assert (forall row, In row (rows data) -> missing j row = false) as Hno.
  { intros row Hin. apply observed_not_missing.
    rewrite forallb_forall in Hall. now apply Hall. }
  rewrite (@row_total_ext _ (fun k => _ + _)
             (pair_count observed missing data j))
    by (intros i _; rewrite (@pair_count_first_none missing); auto; lia).
  apply true_divide_self.
  pose proof (@row_total_ge_term (shape1 data) k
                (pair_count observed missing data j)
                (fun i => pair_count_nonneg _ _ _ _ _) Hk) as Hge.
  rewrite (@pair_count_first_all observed missing data j k Hall) in Hge.
  lia.
Qed.

Lemma outflux_of_observed_variable_witness :
  exists t, @outflux exact scenario (Some ABC) = Return t
            /\ float_is (entry (Fin 2) (values t) 0 0) 1.
Proof.
  apply (@outflux_of_observed_variable exact scenario (Some ABC) 0 1).
  - repeat constructor.
  - vm_compute; lia.
  - vm_compute; lia.
  - vm_compute; lia.
  - reflexivity.
  - reflexivity.
Defined.

(** X6. "Outflux of a completely missing variable is equal to 0": in a
    dataset with at least one row, [outflux] is 0 at every variable that
    every row misses. *)
Theorem outflux_of_missing_variable {F : FloatFormat} (data : dataset)
  (cols : option (list label)) (j : nat) :
  (2 <= shape1 data)%nat -> (1 <= shape0 data)%nat ->
  (j < shape1 data)%nat -> completely_missing j data = true ->
  exists t, outflux data cols = Return t
            /\ float_is (entry (Fin 2) (values t) 0 j) 0.
Proof.
  intros Hp Hn Hj Hall.
  destruct (@outflux_entry F data cols j Hp Hj) as (t & Ht & He).
  exists t. split; [exact Ht|]. rewrite He. clear He.
  unfold completely_missing in Hall.
  assert (forall row, In row (rows data) -> observed j row = false) as Hno.
  { intros row Hin. apply missing_not_observed.
    rewrite forallb_forall in Hall. now apply Hall. }
  rewrite (@row_total_ext _ _ (fun _ => 0))
    by (intros k _; now apply pair_count_first_none).
  rewrite (@row_total_ext _ (fun k => _ + _)
             (pair_count missing missing data j))
    by (intros k _; now rewrite pair_count_first_none).
  rewrite row_total_const. apply true_divide_0_pos.
  pose proof (@row_total_ge_term (shape1 data) j
                (pair_count missing missing data j)
                (fun k => pair_count_nonneg _ _ _ _ _) Hj) as Hge.
  rewrite pair_count_diag, (@count_rows_all _ data) in Hge
    by (rewrite forallb_forall in Hall; exact Hall).
  lia.
Qed.

Lemma outflux_of_missing_variable_witness :
  exists t, @outflux exact first_missing None = Return t
            /\ float_is (entry (Fin 2) (values t) 0 0) 0.
Proof.
  apply (@outflux_of_missing_variable exact first_missing None 0).
  - vm_compute; lia.
  - vm_compute; lia.
  - vm_compute; lia.
  - reflexivity.
Defined.

(** ** When the pairwise coefficients are 1, and when they are NaN *)

Section OnePair.
Context {F : FloatFormat}.
Variable data : dataset.
Variable cols : option (list label).
Variables j k : nat.
Hypothesis Hp : (2 <= shape1 data)%nat.
Hypothesis Hj : (j < shape1 data)%nat.
Hypothesis Hk : (k < shape1 data)%nat.

Lemma inbound_entry :
  exists t, inbound data cols = Return t
    /\ entry (Fin 2) (values t) j k
       = true_divide (pair_count missing observed data j k)
                     (pair_count missing observed data j k
                      + pair_count missing missing data j k).
Proof.
  destruct (@inbound_eq F data Hp cols) as (t & Ht & Hv). cbv zeta in Hv.
  exists t. split; [exact Ht|]. rewrite Hv.
  now rewrite entry_tabulate by assumption.
Qed.

Lemma outbound_entry :
  exists t, outbound data cols = Return t
    /\ entry (Fin 2) (values t) j k
       = true_divide (pair_count observed missing data j k)
                     (pair_count observed missing data j k
                      + pair_count observed observed data j k).
Proof.
  destruct (@outbound_eq F data Hp cols) as (t & Ht & Hv). cbv zeta in Hv.
  exists t. split; [exact Ht|]. rewrite Hv.
  now rewrite entry_tabulate by assumption.
Qed.
End OnePair.

(** X7. "Ijk = 1 if variable Yk observed in all records where Yj missing":
    [inbound] is 1 at (j,k) when variable j is missing in some row and k is
    observed in every row that misses j. *)
Theorem inbound_is_one {F : FloatFormat} (data : dataset)
  (cols : option (list label)) (j k : nat) :
  (2 <= shape1 data)%nat ->
  (j < shape1 data)%nat -> (k < shape1 data)%nat ->
  observed_where_missing j k data = true ->
  0 < count_rows (missing j) data ->
  exists t, inbound data cols = Return t
            /\ float_is (entry (Fin 2) (values t) j k) 1.
Proof.
  intros Hp Hj Hk Himp Hmis.
  destruct (@inbound_entry F data cols j k Hp Hj Hk) as (t & Ht & He).
  exists t. split; [exact Ht|]. rewrite He. clear He.
  unfold observed_where_missing in Himp. rewrite forallb_forall in Himp.
  assert (pair_count missing missing data j k = 0) as ->.
  { unfold pair_count. apply count_rows_none. intros row Hin.
    specialize (Himp row Hin).
    destruct (missing j row) eqn:Em; [|reflexivity].
    simpl in Himp. simpl. destruct (missing k row) eqn:Ek; [|reflexivity].
    apply missing_not_observed in Ek. congruence. }
  assert (pair_count missing observed data j k = count_rows (missing j) data)
    as ->.
  { unfold pair_count, count_rows. apply fold_add_ext. intros row Hin.
    specialize (Himp row Hin).
    destruct (missing j row); [|reflexivity].
    simpl in Himp. now rewrite Himp. }
  rewrite Z.add_0_r. now apply true_divide_self.
Qed.

Lemma inbound_is_one_witness :
  exists t, @inbound exact scenario (Some ABC) = Return t
            /\ float_is (entry (Fin 2) (values t) 1 2) 1.
Proof.
  apply (@inbound_is_one exact scenario (Some ABC) 1 2).
  - vm_compute; lia.
  - vm_compute; lia.
  - vm_compute; lia.
  - reflexivity.
  - reflexivity.
Defined.

(** X8. In a well-shaped dataset, row j of the inbound matrix is NaN exactly
    when no row misses variable j, and row j of the outbound matrix is NaN
    exactly when no row observes variable j. *)
Theorem pairwise_nan_iff {F : FloatFormat} (data : dataset)
  (cols : option (list label)) (j k : nat) :
  well_shaped data -> (2 <= shape1 data)%nat ->
  (j < shape1 data)%nat -> (k < shape1 data)%nat ->
  exists ti to,
    inbound data cols = Return ti
    /\ outbound data cols = Return to
    /\ (entry (Fin 2) (values ti) j k = NaN
        <-> count_rows (missing j) data = 0)
    /\ (entry (Fin 2) (values to) j k = NaN
        <-> count_rows (observed j) data = 0).
Proof.
  intros Hw Hp Hj Hk.
  destruct (@inbound_entry F data cols j k Hp Hj Hk) as (ti & Hti & Hi).
  destruct (@outbound_entry F data cols j k Hp Hj Hk) as (to & Hto & Ho).
  exists ti, to. split; [exact Hti|]. split; [exact Hto|].
  rewrite Hi, Ho. clear Hi Ho.
  pose proof (pair_count_nonneg missing observed data j k).
  pose proof (pair_count_nonneg missing missing data j k).
  pose proof (pair_count_nonneg observed observed data j k).
  pose proof (pair_count_nonneg observed missing data j k).
  rewrite !true_divide_nan_iff by lia.
  rewrite <- (@pair_count_marginal missing data j k Hw Hk).
  rewrite <- (@pair_count_marginal observed data j k Hw Hk).
  split; split; lia.
Qed.

Lemma pairwise_nan_iff_witness :
  exists ti to,
    @inbound exact scenario None = Return ti
    /\ @outbound exact scenario None = Return to
    /\ (entry (Fin 2) (values ti) 0 1 = NaN
        <-> count_rows (missing 0) scenario = 0)
    /\ (entry (Fin 2) (values to) 0 1 = NaN
        <-> count_rows (observed 0) scenario = 0).
Proof.
  apply (@pairwise_nan_iff exact scenario None 0 1).
  - repeat constructor.
  - vm_compute; lia.
  - vm_compute; lia.
  - vm_compute; lia.
Defined.

Lemma column_marginal (f : nat -> list cell -> bool) (data : dataset)
  (j k : nat) :
  well_shaped data -> (j < shape1 data)%nat ->
  pair_count missing f data j k + pair_count observed f data j k
  = count_rows (f k) data.
Proof.
  intros Hw Hj.
  rewrite (pair_count_swap missing f), (pair_count_swap observed f).
  rewrite Z.add_comm. now apply pair_count_marginal.
Qed.

(** X9. In a well-shaped dataset, [influx] is NaN at a variable exactly when
    the dataset has no observed cell, and [outflux] is NaN at a variable
    exactly when the dataset has no missing cell. *)
Theorem flux_nan_iff {F : FloatFormat} (data : dataset)
  (cols : option (list label)) (j : nat) :
  well_shaped data -> (2 <= shape1 data)%nat -> (j < shape1 data)%nat ->
  exists tin tout,
    influx data cols = Return tin
    /\ outflux data cols = Return tout
    /\ (entry (Fin 2) (values tin) 0 j = NaN
        <-> forall k, (k < shape1 data)%nat ->
                      count_rows (observed k) data = 0)
    /\ (entry (Fin 2) (values tout) 0 j = NaN
        <-> forall k, (k < shape1 data)%nat ->
                      count_rows (missing k) data = 0).
Proof.
  intros Hw Hp Hj.
  destruct (@influx_entry F data cols j Hp Hj) as (tin & Hin & Hi).
  destruct (@outflux_entry F data cols j Hp Hj) as (tout & Hout & Ho).
  exists tin, tout. split; [exact Hin|]. split; [exact Hout|].
  rewrite Hi, Ho. clear Hi Ho.
  rewrite !true_divide_nan_iff
    by (apply total_ratio_bounds; intros; apply pair_count_nonneg).
  rewrite (@row_total_ext (shape1 data)
             (fun k => pair_count missing observed data j k
                       + pair_count observed observed data j k)
             (fun k => count_rows (observed k) data))
    by (intros k _; now apply column_marginal).
  rewrite (@row_total_ext (shape1 data)
             (fun k => pair_count observed missing data j k
                       + pair_count missing missing data j k)
             (fun k => count_rows (missing k) data))
    by (intros k _; rewrite Z.add_comm; now apply column_marginal).
  split; apply row_total_zero_iff; intros; apply count_rows_nonneg.
Qed.

Lemma flux_nan_iff_witness :
  exists tin tout,
    @influx exact scenario None = Return tin
    /\ @outflux exact scenario None = Return tout
    /\ (entry (Fin 2) (values tin) 0 1 = NaN
        <-> forall k, (k < 3)%nat -> count_rows (observed k) scenario = 0)
    /\ (entry (Fin 2) (values tout) 0 1 = NaN
        <-> forall k, (k < 3)%nat -> count_rows (missing k) scenario = 0).
Proof.
  apply (@flux_nan_iff exact scenario None 1).
  - repeat constructor.
  - vm_compute; lia.
  - vm_compute; lia.
Defined.

(** X10. Whatever the dataset with p >= 2 columns, the four coefficient
    functions return tables of the expected shape whose entries are all NaN
    or in the closed interval [0, 1]: a zero denominator never yields an
    infinity. *)
Theorem coefficients_nan_or_unit {F : FloatFormat} (data : dataset)
  (cols : option (list label)) :
  (2 <= shape1 data)%nat ->
  (exists t, inbound data cols = Return t
             /\ matrix_of (shape1 data) (shape1 data) nan_or_unit (values t))
  /\ (exists t, outbound data cols = Return t
                /\ matrix_of (shape1 data) (shape1 data) nan_or_unit
                             (values t))
  /\ (exists t, influx data cols = Return t
                /\ matrix_of 1 (shape1 data) nan_or_unit (values t))
  /\ (exists t, outflux data cols = Return t
                /\ matrix_of 1 (shape1 data) nan_or_unit (values t)).
Proof.
  intros Hp.
  destruct (@inbound_eq F data Hp cols) as (ti & Hti & Hvi).
  destruct (@outbound_eq F data Hp cols) as (to & Hto & Hvo).
  destruct (@influx_eq F data Hp cols) as (tin & Htin & Hvin).
  destruct (@outflux_eq F data Hp cols) as (tout & Htout & Hvout).
  cbv zeta in Hvi, Hvo, Hvin, Hvout.
  repeat split.
  - exists ti. split; [exact Hti|]. rewrite Hvi.
    apply matrix_of_tabulate. intros j k _ _.
    apply true_divide_nan_or_unit.
    pose proof (pair_count_nonneg missing observed data j k).
    pose proof (pair_count_nonneg missing missing data j k). lia.
  - exists to. split; [exact Hto|]. rewrite Hvo.
    apply matrix_of_tabulate. intros j k _ _.
    apply true_divide_nan_or_unit.
    pose proof (pair_count_nonneg observed missing data j k).
    pose proof (pair_count_nonneg observed observed data j k). lia.
  - exists tin. split; [exact Htin|]. rewrite Hvin.
    apply matrix_of_row. intros. apply influx_entry_unit.
  - exists tout. split; [exact Htout|]. rewrite Hvout.
    apply matrix_of_row. intros. apply outflux_entry_unit.
Qed.

Lemma coefficients_nan_or_unit_witness :
  (exists t, @inbound exact scenario None = Return t
             /\ matrix_of 3 3 nan_or_unit (values t))
  /\ (exists t, @outbound exact scenario None = Return t
                /\ matrix_of 3 3 nan_or_unit (values t))
  /\ (exists t, @influx exact scenario None = Return t
                /\ matrix_of 1 3 nan_or_unit (values t))
  /\ (exists t, @outflux exact scenario None = Return t
                /\ matrix_of 1 3 nan_or_unit (values t)).
Proof.
  apply (@coefficients_nan_or_unit exact scenario None).
  vm_compute; lia.
Defined.

(** ** [md_pattern]: edge, order and multiplicity of the patterns *)

(** X11. On a dataset without rows and with p >= 2 correctly labelled
    columns, [md_pattern] raises ValueError: [np.apply_along_axis] refuses an
    array whose iteration dimension is 0. *)
Theorem md_pattern_no_rows (data : dataset) (cols : list label) :
  (2 <= shape1 data)%nat -> List.length cols = shape1 data ->
  shape0 data = 0%nat ->
  md_pattern data cols = Raise ValueError.
Proof.
  intros Hp Hc H0. unfold md_pattern, check_dimensions.
  destruct (Nat.ltb_spec (shape1 data) 2); [lia|].
  rewrite Hc, Nat.eqb_refl. now apply md_pattern_body_no_rows.
Qed.

Lemma md_pattern_no_rows_witness :
  md_pattern no_rows [Name "A"; Name "B"] = Raise ValueError.
Proof.
  apply (@md_pattern_no_rows no_rows [Name "A"; Name "B"]).
  - vm_compute; lia.
  - reflexivity.
  - reflexivity.
Defined.

Lemma key_compare_eq (a b : list Z) : key_compare a b = Eq -> a = b.
Proof.
  revert b. induction a as [|x a IH]; intros [|y b]; simpl;
    try discriminate; [reflexivity|].
  destruct (Z.compare_spec x y) as [->|_|_]; try discriminate.
  intros H. f_equal. now apply IH.
Qed.

Lemma key_compare_antisym (a b : list Z) :
  key_compare b a = CompOpp (key_compare a b).
Proof.
  revert b. induction a as [|x a IH]; intros [|y b]; simpl; try reflexivity.
  rewrite (Z.compare_antisym x y).
  destruct (x ?= y); simpl; [apply IH|reflexivity|reflexivity].
Qed.

Lemma key_lt_trans (a b c : list Z) : key_lt a b -> key_lt b c -> key_lt a c.
Proof.
  unfold key_lt. revert b c.
  induction a as [|x a IH]; intros [|y b] [|z c]; simpl;
    try discriminate; try reflexivity.
  destruct (Z.compare_spec x y) as [->|Hxy|Hxy]; try discriminate.
  - destruct (Z.compare_spec y z) as [->|Hyz|Hyz]; try discriminate.
    + apply IH.
    + reflexivity.
  - intros _. destruct (Z.compare_spec y z) as [->|Hyz|Hyz]; try discriminate.
    + intros _. now rewrite (proj2 (Z.compare_lt_iff x z) Hxy).
    + intros _. now rewrite (proj2 (Z.compare_lt_iff x z) ltac:(lia)).
Qed.

Lemma key_lt_irrefl (a : list Z) : ~ key_lt a a.
Proof.
  unfold key_lt. induction a as [|x a IH]; simpl; [discriminate|].
  now rewrite Z.compare_refl.
Qed.

Lemma tally_sorted (k : list Z) (groups : list (list Z * Z)) :
  StronglySorted key_lt (map fst groups) ->
  StronglySorted key_lt (map fst (tally k groups)).
Proof.
  induction groups as [|[k' c] rest IH]; intros Hs.
  - repeat constructor.
  - cbn [map fst] in Hs. inversion Hs as [|? ? Hrest Hall]; subst.
    cbn [tally]. destruct (key_compare k k') eqn:E.
    + exact Hs.
    + cbn [map fst]. constructor; [exact Hs|].
      constructor; [exact E|].
      apply Forall_forall. intros x Hx.
      rewrite Forall_forall in Hall.
      apply (@key_lt_trans k k' x E). now apply Hall.
    + cbn [map fst]. constructor; [now apply IH|].
      apply Forall_forall. intros x Hx.
      apply in_map_iff in Hx. destruct Hx as (g & <- & Hg).
      destruct (tally_keys _ _ _ Hg) as [->|Hin].
      * unfold key_lt. rewrite key_compare_antisym, E. reflexivity.
      * rewrite Forall_forall in Hall. now apply Hall.
Qed.

Lemma fold_tally_sorted (keys : list (list Z)) (groups : list (list Z * Z)) :
  StronglySorted key_lt (map fst groups) ->
  StronglySorted key_lt
    (map fst (fold_left (fun acc k => tally k acc) keys groups)).
Proof.
  revert groups. induction keys as [|k keys IH]; intros groups Hs;
    [exact Hs|].
  cbn [fold_left]. apply IH. now apply tally_sorted.
Qed.

Lemma pattern_groups_sorted (data : dataset) :
  StronglySorted key_lt (map fst (pattern_groups data)).
Proof. apply fold_tally_sorted. constructor. Qed.

Lemma tally_length (k : list Z) (groups : list (list Z * Z)) :
  (List.length groups <= List.length (tally k groups)
   <= S (List.length groups))%nat.
Proof.
  induction groups as [|[k' c] rest IH]; [simpl; lia|].
  cbn [tally]. destruct (key_compare k k'); cbn [List.length]; lia.
Qed.

Lemma fold_tally_length (keys : list (list Z)) (groups : list (list Z * Z)) :
  (List.length groups
   <= List.length (fold_left (fun acc k => tally k acc) keys groups)
   <= List.length groups + List.length keys)%nat.
Proof.
  revert groups. induction keys as [|k keys IH]; intros groups.
  - simpl. lia.
  - cbn [fold_left List.length]. specialize (IH (tally k groups)).
    pose proof (tally_length k groups). lia.
Qed.

Lemma pattern_groups_length (data : dataset) :
  (1 <= shape0 data)%nat ->
  (1 <= List.length (pattern_groups data) <= shape0 data)%nat.
Proof.
  intros Hn. unfold pattern_groups.
  pose proof (pattern_keys_length data) as Hl.
  destruct (pattern_keys data) as [|k keys]; [simpl in Hl; lia|].
  cbn [fold_left]. pose proof (fold_tally_length keys (tally k [])) as H.
  cbn [tally List.length] in *. lia.
Qed.

Lemma flip_reverses (a b : list Z) :
  List.length a = List.length b ->
  Forall (fun x => x = 0 \/ x = 1) a -> Forall (fun x => x = 0 \/ x = 1) b ->
  key_lt a b ->
  key_lt (map (fun x : Z => times1 (logical_not x)) b)
         (map (fun x : Z => times1 (logical_not x)) a).
Proof.
  unfold key_lt. intros Hlen Ha. revert b Hlen.
  induction Ha as [|x a Hx _ IH]; intros b Hlen Hb;
    destruct Hb as [|y b Hy Hb]; simpl in Hlen; try discriminate.
  assert (List.length a = List.length b) as Hl by lia.
  destruct Hx as [->| ->], Hy as [->| ->]; simpl;
    try discriminate; try reflexivity; now apply IH.
Qed.

Lemma shown_pattern_row (p : nat) (g : list Z * Z) :
  List.length (fst g) = p ->
  shown_pattern p (pattern_row g)
  = map (fun x : Z => times1 (logical_not x)) (fst g).
Proof.
  intros H. unfold shown_pattern, pattern_row. cbn [tl].
  rewrite firstn_app, length_map, H, Nat.sub_diag. cbn [firstn].
  rewrite app_nil_r. apply firstn_all2. rewrite length_map. lia.
Qed.

Lemma StronglySorted_map_in {A B} (R : A -> A -> Prop) (S : B -> B -> Prop)
  (f : A -> B) (l : list A) :
  (forall x y, In x l -> In y l -> R x y -> S (f x) (f y)) ->
  StronglySorted R l -> StronglySorted S (map f l).
Proof.
  intros H Hs. induction Hs as [|x l Hs IH Hall]; [constructor|].
  cbn [map]. constructor.
  - apply IH. intros a b Ha Hb. apply H; now right.
  - apply Forall_forall. intros y Hy. apply in_map_iff in Hy.
    destruct Hy as (b & <- & Hb). rewrite Forall_forall in Hall.
    apply H; [now left|now right|now apply Hall].
Qed.

Lemma StronglySorted_NoDup {A} (R : A -> A -> Prop) (l : list A) :
  (forall x, ~ R x x) -> StronglySorted R l -> NoDup l.
Proof.
  intros Hirr Hs. induction Hs as [|x l Hs IH Hall]; constructor; auto.
  intros Hin. rewrite Forall_forall in Hall. apply (Hirr x). now apply Hall.
Qed.

(** X12. On a dataset with at least one row (labels distinct and none of 0,
    count, nmis) [md_pattern] returns a table of between 1 and n rows; its
    rows are in strictly descending tuple order of their variable columns
    (the order of [groupby], which sorts on the 1 = missing coding before the
    columns are flipped), so no two rows show the same pattern. *)
Theorem md_pattern_rows_sorted (data : dataset) (cols : list label) :
  (2 <= shape1 data)%nat -> List.length cols = shape1 data ->
  clean_labels cols = true -> (1 <= shape0 data)%nat ->
  exists t,
    md_pattern data cols = Return t
    /\ (1 <= List.length (values t) <= shape0 data)%nat
    /\ StronglySorted
         (fun r r' => key_lt (shown_pattern (shape1 data) r')
                             (shown_pattern (shape1 data) r))
         (values t)
    /\ NoDup (map (shown_pattern (shape1 data)) (values t)).
Proof.
  intros Hp Hc Hclean Hn.
  assert (md_pattern data cols = md_pattern_body data (Some cols)) as Hbody.
  { unfold md_pattern, check_dimensions.
    destruct (Nat.ltb_spec (shape1 data) 2); [lia|].
    now rewrite Hc, Nat.eqb_refl. }
  rewrite Hbody, (@md_pattern_body_eq data cols Hc Hclean Hn).
  eexists. split; [reflexivity|]. cbn [values].
  assert (StronglySorted
            (fun r r' => key_lt (shown_pattern (shape1 data) r')
                                (shown_pattern (shape1 data) r))
            (map pattern_row (pattern_groups data))) as Hsorted.
  { pose proof (pattern_groups_sorted data) as Hs.
    assert (forall g g', In g (pattern_groups data) ->
              In g' (pattern_groups data) ->
              key_lt (fst g) (fst g') ->
              key_lt (shown_pattern (shape1 data) (pattern_row g'))
                     (shown_pattern (shape1 data) (pattern_row g))) as Hrel.
    { intros g g' Hg Hg' Hlt.
      destruct (pattern_group_shape _ _ Hg) as (Hl & Hb).
      destruct (pattern_group_shape _ _ Hg') as (Hl' & Hb').
      rewrite !shown_pattern_row by assumption.
      apply flip_reverses; try assumption. congruence. }
    clear - Hs Hrel. induction (pattern_groups data) as [|g l IH];
      [constructor|].
    cbn [map fst] in *. inversion Hs as [|? ? Hs' Hall]; subst.
    constructor.
    - apply IH; [exact Hs'|]. intros a b Ha Hb. apply Hrel; now right.
    - apply Forall_forall. intros r Hr. apply in_map_iff in Hr.
      destruct Hr as (g' & <- & Hg'). rewrite Forall_forall in Hall.
      apply Hrel; [now left|now right|]. apply Hall. now apply in_map. }
  split; [rewrite length_map; now apply pattern_groups_length|].
  split; [exact Hsorted|].
  apply (@StronglySorted_NoDup _ (fun a b => key_lt b a));
    [intros x; apply key_lt_irrefl|].
  revert Hsorted. apply StronglySorted_map_in. auto.
Qed.

Lemma md_pattern_rows_sorted_witness :
  exists t,
    md_pattern scenario ABC = Return t
    /\ (1 <= List.length (values t) <= 4)%nat
    /\ StronglySorted
         (fun r r' => key_lt (shown_pattern 3 r') (shown_pattern 3 r))
         (values t)
    /\ NoDup (map (shown_pattern 3) (values t)).
Proof.
  apply (@md_pattern_rows_sorted scenario ABC).
  - vm_compute; lia.
  - reflexivity.
  - reflexivity.
  - vm_compute; lia.
Defined.

(** ** [md_pattern]: what the counts count *)

Lemma fold_add_perm {X} (w : X -> Z) (l l' : list X) :
  Permutation l l' ->
  fold_right Z.add 0 (map w l) = fold_right Z.add 0 (map w l').
Proof.
  induction 1 as [|x l l' _ IH|x y l|l l' l'' _ IH1 _ IH2]; simpl; lia.
Qed.

Lemma take_all_perm {A} (d : A) (l : list A) (perm : list nat) :
  Permutation perm (seq 0 (List.length l)) ->
  Permutation (map (fun i => nth i l d) perm) l.
Proof.
  intros H. rewrite (Permutation_map (fun i => nth i l d) H).
  pose proof (map_nth_block d [] l []) as Hb.
  cbn [app List.length] in Hb. rewrite app_nil_r in Hb. now rewrite Hb.
Qed.

Lemma nth_isnull (j : nat) (row : list cell) :
  nth j (map (fun c : cell => match c with None => true | Some _ => false end)
             row) false
  = missing j row.
Proof.
  unfold missing. revert j.
  induction row as [|c row IH]; intros [|j]; simpl; try reflexivity;
    try (now destruct c); apply IH.
Qed.

Lemma reordered_rows (data : dataset) :
  map (map times1) (rows (reordered data))
  = map (key_of (pattern_order data)) (rows data).
Proof.
  unfold reordered, take_columns, _is_null, amap, key_of, pattern_order.
  cbn [rows]. rewrite !map_map. apply map_ext. intros row.
  rewrite map_map. apply map_ext. intros j. now rewrite nth_isnull.
Qed.

(** The keys handed to [groupby] are the keys of the dataset rows, in some
    order. *)
Lemma pattern_keys_perm (data : dataset) :
  Permutation (pattern_keys data)
              (map (key_of (pattern_order data)) (rows data)).
Proof.
  rewrite <- reordered_rows. unfold pattern_keys, amap, take_rows.
  cbn [rows]. apply Permutation_map. apply take_all_perm.
  replace (List.length (rows (reordered data)))
    with (List.length
            (map num_string (map (map times1) (rows (reordered data)))))
    by (now rewrite !length_map).
  apply argsort_perm.
Qed.

Lemma tally_weighted (w : list Z -> Z) (k : list Z)
  (groups : list (list Z * Z)) :
  fold_right Z.add 0 (map (fun g => snd g * w (fst g)) (tally k groups))
  = fold_right Z.add 0 (map (fun g => snd g * w (fst g)) groups) + w k.
Proof.
  induction groups as [|[k' c] rest IH];
    [cbn [tally map fold_right fst snd]; lia|].
  cbn [tally]. destruct (key_compare k k') eqn:E;
    cbn [map fold_right fst snd] in *.
  - apply key_compare_eq in E. subst k'. lia.
  - lia.
  - rewrite IH. lia.
Qed.

Lemma fold_tally_weighted (w : list Z -> Z) (keys : list (list Z))
  (groups : list (list Z * Z)) :
  fold_right Z.add 0
    (map (fun g => snd g * w (fst g))
         (fold_left (fun acc k => tally k acc) keys groups))
  = fold_right Z.add 0 (map (fun g => snd g * w (fst g)) groups)
    + fold_right Z.add 0 (map w keys).
Proof.
  revert groups. induction keys as [|k keys IH]; intros groups.
  - cbn [fold_left map fold_right]. lia.
  - cbn [fold_left map fold_right]. rewrite IH, tally_weighted. lia.
Qed.

(** Weighted by any function of the key, the group sizes add up to the sum
    over the rows of the dataset. *)
Lemma pattern_groups_weighted (w : list Z -> Z) (data : dataset) :
  fold_right Z.add 0
    (map (fun g => snd g * w (fst g)) (pattern_groups data))
  = fold_right Z.add 0
      (map (fun row => w (key_of (pattern_order data) row)) (rows data)).
Proof.
  unfold pattern_groups. rewrite fold_tally_weighted. cbn [map fold_right].
  rewrite (@fold_add_perm _ w _ _ (pattern_keys_perm data)), map_map. lia.
Qed.

Lemma same_pattern_refl (a : list Z) : same_pattern a a = true.
Proof. unfold same_pattern. now destruct (list_eq_dec Z.eq_dec a a). Qed.

Lemma same_pattern_neq (a b : list Z) : a <> b -> same_pattern a b = false.
Proof. unfold same_pattern. now destruct (list_eq_dec Z.eq_dec a b). Qed.

Lemma single_group (groups : list (list Z * Z)) (g0 : list Z * Z) :
  NoDup (map fst groups) -> In g0 groups ->
  fold_right Z.add 0
    (map (fun g => snd g * times1 (same_pattern (fst g) (fst g0))) groups)
  = snd g0.
Proof.
  induction groups as [|g rest IH]; intros Hnd Hin; [contradiction|].
  cbn [map fst] in Hnd. inversion Hnd as [|? ? Hn Hnd']; subst.
  cbn [map fold_right]. destruct Hin as [->|Hin].
  - rewrite same_pattern_refl.
    rewrite (fold_add_ext _ (fun _ => 0)).
    + rewrite fold_add_const. cbn [times1]. lia.
    + intros g Hg. rewrite same_pattern_neq; [cbn [times1]; lia|].
      intros Heq. apply Hn. rewrite <- Heq. now apply in_map.
  - rewrite IH by assumption.
    rewrite same_pattern_neq; [cbn [times1]; lia|].
    intros Heq. apply Hn. rewrite Heq. now apply in_map.
Qed.

Lemma pattern_groups_NoDup (data : dataset) :
  NoDup (map fst (pattern_groups data)).
Proof.
  apply (@StronglySorted_NoDup _ key_lt);
    [apply key_lt_irrefl|apply pattern_groups_sorted].
Qed.

(** The size of a group is the number of dataset rows with its key. *)
Lemma group_size_is_multiplicity (data : dataset) (g0 : list Z * Z) :
  In g0 (pattern_groups data) ->
  snd g0
  = count_rows (fun row => same_pattern (key_of (pattern_order data) row)
                                        (fst g0)) data.
Proof.
  intros Hin.
  rewrite <- (@single_group (pattern_groups data) g0
                (pattern_groups_NoDup data) Hin).
  apply (pattern_groups_weighted
           (fun k => times1 (same_pattern k (fst g0))) data).
Qed.

Lemma pattern_order_perm (data : dataset) :
  Permutation (pattern_order data) (seq 0 (shape1 data)).
Proof.
  unfold pattern_order.
  replace (shape1 data) with (List.length (sum_axis0 (_is_null data))).
  - apply argsort_perm.
  - unfold sum_axis0. now rewrite length_map, length_seq.
Qed.

Lemma flip_key_of (perm : list nat) (row : list cell) :
  Forall (fun j => (j < List.length row)%nat) perm ->
  map (fun x : Z => times1 (logical_not x)) (key_of perm row)
  = observed_pattern perm row.
Proof.
  intros H. unfold key_of, observed_pattern. rewrite map_map.
  apply map_ext_in. intros j Hj. rewrite Forall_forall in H.
  specialize (H j Hj). unfold missing, observed.
  destruct (nth_error row j) as [[?|]|] eqn:E;
    [reflexivity|reflexivity|apply nth_error_None in E; lia].
Qed.

Lemma flip_injective (a b : list Z) :
  Forall (fun x => x = 0 \/ x = 1) a -> Forall (fun x => x = 0 \/ x = 1) b ->
  map (fun x : Z => times1 (logical_not x)) a
  = map (fun x : Z => times1 (logical_not x)) b ->
  a = b.
Proof.
  intros Ha. revert b. induction Ha as [|x a Hx _ IH]; intros b Hb Heq;
    destruct Hb as [|y b Hy Hb]; simpl in Heq; try discriminate;
    [reflexivity|].
  injection Heq as Hh Ht. f_equal; [|now apply IH].
  destruct Hx as [->| ->], Hy as [->| ->]; simpl in Hh;
    try reflexivity; discriminate.
Qed.

Lemma key_of_bits (perm : list nat) (row : list cell) :
  Forall (fun x => x = 0 \/ x = 1) (key_of perm row).
Proof.
  apply Forall_forall. intros x Hx. apply in_map_iff in Hx.
  destruct Hx as (j & <- & _). apply times1_bit.
Qed.

Lemma tally_positive (k : list Z) (groups : list (list Z * Z)) :
  Forall (fun g => 1 <= snd g) groups ->
  Forall (fun g => 1 <= snd g) (tally k groups).
Proof.
  induction 1 as [|[k' c] rest Hc Hrest IH];
    [repeat constructor; simpl; lia|].
  cbn [snd] in Hc. cbn [tally]. destruct (key_compare k k').
  - constructor; [cbn [snd]; lia|exact Hrest].
  - constructor; [cbn [snd]; lia|]. constructor; [exact Hc|exact Hrest].
  - constructor; [exact Hc|exact IH].
Qed.

Lemma pattern_groups_positive (data : dataset) :
  Forall (fun g => 1 <= snd g) (pattern_groups data).
Proof.
  unfold pattern_groups. generalize (@nil (list Z * Z)) (Forall_nil
    (fun g : list Z * Z => 1 <= snd g)).
  induction (pattern_keys data) as [|k keys IH]; intros groups Hg;
    [exact Hg|].
  cbn [fold_left]. apply IH. now apply tally_positive.
Qed.

(** X13. On a well-shaped dataset with at least one row, [md_pattern] applies
    to the variables a permutation of the column indices, and in the table it
    returns the count of every row is the number of dataset rows whose
    observed/missing pattern, the variables taken in that order, is the one
    the row shows; every shown pattern occurs (count >= 1). *)
Theorem md_pattern_count_is_multiplicity (data : dataset) (cols : list label) :
  well_shaped data -> (2 <= shape1 data)%nat ->
  List.length cols = shape1 data -> clean_labels cols = true ->
  (1 <= shape0 data)%nat ->
  exists t,
    md_pattern data cols = Return t
    /\ Permutation (pattern_order data) (seq 0 (shape1 data))
    /\ Forall
         (fun trow =>
            1 <= nth 0 trow 0
            /\ nth 0 trow 0
               = count_rows
                   (fun row =>
                      same_pattern (observed_pattern (pattern_order data) row)
                                   (shown_pattern (shape1 data) trow))
                   data)
         (values t).
Proof.
  intros Hw Hp Hc Hclean Hn.
  assert (md_pattern data cols = md_pattern_body data (Some cols)) as Hbody.
  { unfold md_pattern, check_dimensions.
    destruct (Nat.ltb_spec (shape1 data) 2); [lia|].
    now rewrite Hc, Nat.eqb_refl. }
  rewrite Hbody, (@md_pattern_body_eq data cols Hc Hclean Hn).
  eexists. split; [reflexivity|]. split; [apply pattern_order_perm|].
  cbn [values]. apply Forall_forall. intros trow Hrow.
  apply in_map_iff in Hrow. destruct Hrow as (g & <- & Hg).
  destruct (pattern_group_shape _ _ Hg) as (Hlen & Hbits).
  rewrite shown_pattern_row by assumption. cbn [pattern_row nth].
  split.
  - pose proof (pattern_groups_positive data) as Hpos.
    rewrite Forall_forall in Hpos. now apply Hpos.
  - rewrite (group_size_is_multiplicity data g Hg).
    unfold count_rows. apply fold_add_ext. intros row Hin. f_equal.
    assert (Forall (fun j => (j < List.length row)%nat) (pattern_order data))
      as Hrange.
    { apply Forall_forall. intros j Hj.
      apply (Permutation_in _ (pattern_order_perm data)) in Hj.
      apply in_seq in Hj. rewrite (row_length Hw _ Hin). lia. }
    rewrite <- (@flip_key_of (pattern_order data) row Hrange).
    unfold same_pattern.
    destruct (list_eq_dec Z.eq_dec (key_of (pattern_order data) row) (fst g))
      as [->|Hne].
    + now destruct (list_eq_dec Z.eq_dec _ _).
    + destruct (list_eq_dec Z.eq_dec _ _) as [Heq|]; [|reflexivity].
      exfalso. apply Hne. apply flip_injective; try assumption.
      apply key_of_bits.
Qed.

Lemma md_pattern_count_is_multiplicity_witness :
  exists t,
    md_pattern scenario ABC = Return t
    /\ Permutation (pattern_order scenario) (seq 0 3)
    /\ Forall
         (fun trow =>
            1 <= nth 0 trow 0
            /\ nth 0 trow 0
               = count_rows
                   (fun row =>
                      same_pattern (observed_pattern (pattern_order scenario)
                                                     row)
                                   (shown_pattern 3 trow))
                   scenario)
         (values t).
Proof.
  apply (@md_pattern_count_is_multiplicity scenario ABC).
  - repeat constructor.
  - vm_compute; lia.
  - reflexivity.
  - reflexivity.
  - vm_compute; lia.
Defined.

Lemma last_pattern_row (g : list Z * Z) :
  last (pattern_row g) 0 = fold_right Z.add 0 (fst g).
Proof.
  unfold pattern_row.
  change (snd g :: ?l ++ [?s]) with ((snd g :: l) ++ [s]).
  apply last_last.
Qed.

(** X14. In the table that [md_pattern] returns for a dataset with at least
    one row, the products count * nmis of the rows add up to the number of
    missing cells of the dataset: no missing cell is lost or counted twice. *)
Theorem md_pattern_accounts_for_missing_cells (data : dataset)
  (cols : list label) :
  (2 <= shape1 data)%nat -> List.length cols = shape1 data ->
  clean_labels cols = true -> (1 <= shape0 data)%nat ->
  exists t,
    md_pattern data cols = Return t
    /\ fold_right Z.add 0
         (map (fun trow => nth 0 trow 0 * last trow 0) (values t))
       = missing_cells data.
Proof.
  intros Hp Hc Hclean Hn.
  assert (md_pattern data cols = md_pattern_body data (Some cols)) as Hbody.
  { unfold md_pattern, check_dimensions.
    destruct (Nat.ltb_spec (shape1 data) 2); [lia|].
    now rewrite Hc, Nat.eqb_refl. }
  rewrite Hbody, (@md_pattern_body_eq data cols Hc Hclean Hn).
  eexists. split; [reflexivity|]. cbn [values]. rewrite map_map.
  rewrite (fold_add_ext _ (fun g => snd g * fold_right Z.add 0 (fst g)))
    by (intros g _; now rewrite last_pattern_row).
  rewrite (pattern_groups_weighted (fold_right Z.add 0) data).
  unfold missing_cells. apply fold_add_ext. intros row _.
  unfold key_of, row_total.
  apply fold_add_perm. apply pattern_order_perm.
Qed.

Lemma md_pattern_accounts_for_missing_cells_witness :
  exists t,
    md_pattern scenario ABC = Return t
    /\ fold_right Z.add 0
         (map (fun trow => nth 0 trow 0 * last trow 0) (values t))
       = missing_cells scenario.
Proof.
  apply (@md_pattern_accounts_for_missing_cells scenario ABC).
  - vm_compute; lia.
  - reflexivity.
  - reflexivity.
  - vm_compute; lia.
Defined.

(** ** The column order of [md_pattern] *)

Section InsertionSort.
Context {A : Type} (leb : A -> A -> bool).
Hypothesis leb_total : forall a b, leb a b = false -> leb b a = true.
Hypothesis leb_trans :
  forall a b c, leb a b = true -> leb b c = true -> leb a c = true.

Let R (x y : nat * A) : Prop := leb (snd x) (snd y) = true.

Lemma insert_by_sorted (x : nat * A) (l : list (nat * A)) :
  StronglySorted R l -> StronglySorted R (insert_by leb x l).
Proof.
  induction 1 as [|y l Hs IH Hall]; [repeat constructor|].
  cbn [insert_by]. destruct (leb (snd x) (snd y)) eqn:E.
  - constructor; [now constructor|].
    constructor; [exact E|].
    apply Forall_forall. intros z Hz. rewrite Forall_forall in Hall.
    eapply leb_trans; [exact E|]. now apply Hall.
  - constructor; [exact IH|].
    apply Forall_forall. intros z Hz.
    apply (Permutation_in _ (insert_by_perm leb x l)) in Hz.
    destruct Hz as [<-|Hz].
    + now apply leb_total.
    + rewrite Forall_forall in Hall. now apply Hall.
Qed.

Lemma insertion_sort_sorted (l : list (nat * A)) :
  StronglySorted R (fold_right (insert_by leb) [] l).
Proof.
  induction l as [|x l IH]; [constructor|].
  cbn [fold_right]. now apply insert_by_sorted.
Qed.
End InsertionSort.

Lemma in_combine_seq {A} (d : A) (xs : list A) (a i : nat) (x : A) :
  In (i, x) (combine (seq a (List.length xs)) xs) -> nth (i - a) xs d = x.
Proof.
  revert a. induction xs as [|y xs IH]; intros a; [contradiction|].
  cbn [List.length seq combine]. intros [Heq|Hin].
  - injection Heq as <- <-. now rewrite Nat.sub_diag.
  - pose proof (in_combine_l _ _ _ _ Hin) as Hi. apply in_seq in Hi.
    specialize (IH (S a) Hin).
    replace (i - a)%nat with (S (i - S a)) by lia. exact IH.
Qed.

Lemma argsort_ascending (xs : list Z) :
  StronglySorted Z.le (map (fun i => nth i xs 0) (argsort Z.leb xs)).
Proof.
  unfold argsort. rewrite map_map.
  pose proof (@insertion_sort_sorted Z Z.leb
                (fun a b H => proj2 (Z.leb_le b a)
                                (ltac:(apply Z.leb_gt in H; lia)))
                (fun a b c H1 H2 =>
                   proj2 (Z.leb_le a c)
                     (Z.le_trans _ _ _ (proj1 (Z.leb_le a b) H1)
                                       (proj1 (Z.leb_le b c) H2)))
                (combine (seq 0 (List.length xs)) xs)) as Hs.
  cbv zeta in Hs.
  revert Hs. apply StronglySorted_map_in.
  intros p q Hp Hq Hpq.
  apply (Permutation_in _ (insertion_sort_perm Z.leb _)) in Hp.
  apply (Permutation_in _ (insertion_sort_perm Z.leb _)) in Hq.
  destruct p as [i x], q as [i' x'].
  apply (in_combine_seq 0) in Hp. apply (in_combine_seq 0) in Hq.
  cbn [fst snd] in *. rewrite Nat.sub_0_r in Hp, Hq.
  rewrite Hp, Hq. now apply Z.leb_le.
Qed.

Lemma nth_sum_axis0 (data : dataset) (j : nat) :
  (j < shape1 data)%nat ->
  nth j (sum_axis0 (_is_null data)) 0 = count_rows (missing j) data.
Proof.
  intros Hj. unfold sum_axis0. cbn [shape1 _is_null amap].
  rewrite (nth_map_seq _ 0 0 Hj). cbn [Nat.add].
  unfold count_rows, column, _is_null, amap. cbn [rows].
  rewrite !map_map. f_equal. apply map_ext. intros row.
  now rewrite nth_isnull.
Qed.

(** X15. The order in which [md_pattern] takes the variables
    ([np.argsort] of the per-column missing totals) lists every column index
    exactly once, by ascending number of rows that miss the variable. *)
Theorem pattern_order_ascending (data : dataset) :
  Permutation (pattern_order data) (seq 0 (shape1 data))
  /\ StronglySorted Z.le
       (map (fun j => count_rows (missing j) data) (pattern_order data)).
Proof.
  split; [apply pattern_order_perm|].
  rewrite (map_ext_in (fun j => count_rows (missing j) data)
             (fun j => nth j (sum_axis0 (_is_null data)) 0)).
  - apply argsort_ascending.
  - intros j Hj. symmetry. apply nth_sum_axis0.
    apply (Permutation_in _ (pattern_order_perm data)) in Hj.
    apply in_seq in Hj. lia.
Qed.

(** ** [flux]: labels that do not fit, datasets without rows *)

(** X16. [flux] does not validate its labels: with p >= 2 columns and a label
    list of another length, it raises ValueError (from [pd.DataFrame]), not
    DimensionError. *)
Theorem flux_label_mismatch {F : FloatFormat} (data : dataset)
  (cols : list label) :
  (2 <= shape1 data)%nat -> List.length cols <> shape1 data ->
  flux data cols = Raise ValueError.
Proof.
  intros Hp Hne. unfold flux. rewrite (@md_pairs_eq data None Hp I).
  cbn [bind]. rewrite (_inbound_values data), (_outbound_values data).
  rewrite !apply_along_axis1_tabulate by lia. cbn [bind].
  unfold DataFrame, mean_axis0. cbn [forallb snd].
  rewrite sum_axis0_observed, !length_map, length_seq.
  destruct (Nat.eqb_spec (shape1 data) (List.length cols)) as [E|_];
    [congruence|reflexivity].
Qed.

Lemma flux_label_mismatch_witness :
  @flux exact scenario [Name "A"; Name "B"] = Raise ValueError.
Proof.
  apply (@flux_label_mismatch exact scenario [Name "A"; Name "B"]).
  - vm_compute; lia.
  - vm_compute; discriminate.
Defined.

Lemma fold_fadd_zero {F : FloatFormat} (row : list float64) (a : Q) :
  Forall (fun x => x = NaN) row -> (a == 0)%Q ->
  exists q, fold_left fadd (map nan_to_zero row) (Fin a) = Fin q
            /\ (q == 0)%Q.
Proof.
  intros H. revert a. induction H as [|x row -> _ IH]; intros a Ha.
  - now exists a.
  - cbn [map nan_to_zero fold_left fadd]. apply IH.
    apply Qeq_trans with (rnd 0); [|apply rnd_0].
    apply rnd_proper. rewrite Ha. ring.
Qed.

Lemma row_mean_all_nan {F : FloatFormat} (p : nat) :
  (2 <= p)%nat ->
  float_is (row_mean (map (fun _ : nat => NaN) (seq 0 p))) 0.
Proof.
  intros Hp. unfold row_mean, nansum. rewrite length_map, length_seq.
  destruct (@fold_fadd_zero F (map (fun _ : nat => NaN) (seq 0 p)) 0)
    as (q & -> & Hq).
  - apply Forall_forall. intros x Hx. apply in_map_iff in Hx.
    now destruct Hx as (k & <- & _).
  - reflexivity.
  - destruct (@fdiv_by_count F q (Z.of_nat p - 1) ltac:(lia)) as (r & -> & Hr).
    cbn [float_is]. rewrite Hr.
    apply Qeq_trans with (rnd 0); [|apply rnd_0].
    apply rnd_proper. rewrite Hq.
    pose proof (@rnd_int_pos F (Z.of_nat p - 1) ltac:(lia)).
    field. lra.
Qed.

(** X17. On a dataset without rows and with p >= 2 labelled columns, [flux]
    does not raise: it returns p rows in which pobs, influx and outflux are
    NaN and ainb and aout are 0. *)
Theorem flux_no_rows {F : FloatFormat} (data : dataset) (cols : list label) :
  (2 <= shape1 data)%nat -> List.length cols = shape1 data ->
  shape0 data = 0%nat ->
  exists t, flux data cols = Return t
    /\ List.length (values t) = shape1 data
    /\ Forall (fun row =>
                 exists a b, row = [NaN; NaN; NaN; a; b]
                             /\ float_is a 0 /\ float_is b 0)
              (values t).
Proof.
  intros Hp Hc H0. rewrite (@flux_eq F data cols Hp Hc).
  eexists. split; [reflexivity|]. cbn [values].
  split; [now rewrite length_map, length_seq|].
  assert (forall P, count_rows P data = 0) as Hcount.
  { intros P. unfold count_rows. unfold shape0 in H0.
    apply length_zero_iff_nil in H0. now rewrite H0. }
  assert (forall f g j k, pair_count f g data j k = 0) as Hpair
    by (intros; apply Hcount).
  apply Forall_forall. intros row Hrow. apply in_map_iff in Hrow.
  destruct Hrow as (j & <- & _).
  assert (forall E, (forall k, E k = 0) -> row_total (shape1 data) E = 0)
    as Hrt.
  { intros E HE. rewrite (@row_total_ext _ E (fun _ => 0)) by auto.
    rewrite row_total_const. lia. }
  rewrite Hcount, H0.
  rewrite (Hrt (pair_count missing observed data j)) by (intros; apply Hpair).
  rewrite (Hrt (pair_count observed missing data j)) by (intros; apply Hpair).
  rewrite (Hrt (fun k => pair_count missing observed data j k
                         + pair_count observed observed data j k))
    by (intros; now rewrite !Hpair).
  rewrite (Hrt (fun k => pair_count observed missing data j k
                         + pair_count missing missing data j k))
    by (intros; now rewrite !Hpair).
  rewrite (map_ext (fun k => true_divide (pair_count missing observed data j k)
                               (pair_count missing observed data j k
                                + pair_count missing missing data j k))
                   (fun _ : nat => NaN))
    by (intros; rewrite !Hpair; apply true_divide_0_0).
  rewrite (map_ext (fun k => true_divide (pair_count observed missing data j k)
                               (pair_count observed missing data j k
                                + pair_count observed observed data j k))
                   (fun _ : nat => NaN))
    by (intros; rewrite !Hpair; apply true_divide_0_0).
  cbn [Z.of_nat]. rewrite !true_divide_0_0.
  do 2 eexists. split; [reflexivity|].
  split; now apply row_mean_all_nan.
Qed.

Lemma flux_no_rows_witness :
  exists t, @flux exact no_rows [Name "A"; Name "B"] = Return t
    /\ List.length (values t) = 2%nat
    /\ Forall (fun row =>
                 exists a b, row = [NaN; NaN; NaN; a; b]
                             /\ float_is a 0 /\ float_is b 0)
              (values t).
Proof.
  apply (@flux_no_rows exact no_rows [Name "A"; Name "B"]).
  - vm_compute; lia.
  - reflexivity.
  - reflexivity.
Defined.
